(** * createAuthScheme: the token authorizer of serverless-offline

    A shallow embedding of [src/createAuthScheme.js].

    - The JavaScript values that flow through the authorizer are the
      inductive type [value].  Objects and arrays are data: the list of
      their own enumerable properties, in enumeration order, with no getters,
      no [toJSON] method and no prototype chain of their own making; the
      built-in classes that the program tells apart ([Error], native
      promises) are tags.  Functions are opaque.  Symbols, big integers and
      objects that contain themselves are left out.
    - Numbers are the integral ones, NaN and the infinities.
    - Strings are Rocq strings, one character per code unit below 256; the
      Greek letter in the log texts is held in its UTF-8 bytes.
    - Calls of the response channel and of the loggers are recorded, in
      program order, as a list of [effect]s; a run ends by returning, by an
      exception, or by handing its two continuations to a thenable that is
      not a native promise.
    - The effects of one completion are listed in their order in time,
      with a mark, [Later], where the call of the callback returns and the
      jobs of a promise take over.  The effects of a request are listed
      completion by completion, so the reaction to a promise stands with
      the completion that brought the promise, whenever it runs.
    - The headers of a request are the own properties of a plain object,
      whose prototype is that of every plain object.
    - The text of a TypeError raised by the engine is worded as Node words
      it; nothing below depends on the wording. *)

From Stdlib Require Import ZArith Ascii String List Lia DecimalString.
From stdpp Require Import base option list strings gmap.

Local Open Scope Z_scope.
#[local] Set Warnings "-register-all".

(** ** Strings *)

Module Str.

(** The double-quote character, code 34, and the backslash, code 92. *)
Definition dquote : ascii := "034"%char.
Definition backslash : ascii := "092"%char.

Definition DQ : string := String dquote EmptyString.

(** The two characters [backslash] [dquote]: what line 92 searches for. *)
Definition escapedQuote : string := String backslash (String dquote EmptyString).

(** [String.prototype.startsWith]: [pat] is a prefix of [s]. *)
Fixpoint startsWith (pat s : string) : bool :=
  match pat, s with
  | EmptyString, _ => true
  | String _ _, EmptyString => false
  | String a pat', String b s' => if Ascii.eqb a b then startsWith pat' s' else false
  end.

(** [s.indexOf(pat)] from position [i]: the least position at which [pat]
    occurs, [-1] when there is none. *)
Fixpoint indexOfFrom (pat s : string) (i : Z) : Z :=
  if startsWith pat s then i
  else match s with
       | EmptyString => -1
       | String _ s' => indexOfFrom pat s' (i + 1)
       end.

Definition indexOf (s pat : string) : Z := indexOfFrom pat s 0.

(** [s] holds [pat] at character position [n]. *)
Definition occursAt (pat s : string) (n : nat) : Prop :=
  exists pre post, s = pre +:+ pat +:+ post /\ String.length pre = n.

(** [s.includes(pat)]. *)
Definition includes (s pat : string) : Prop := exists n, occursAt pat s n.

(** [Array.prototype.join] over strings. *)
Fixpoint join (sep : string) (xs : list string) : string :=
  match xs with
  | [] => EmptyString
  | [x] => x
  | x :: rest => x +:+ sep +:+ join sep rest
  end.

(** ToString of an integral number: decimal digits, a minus sign first when
    negative. *)
Definition ofZ (z : Z) : string := NilZero.string_of_int (Z.to_int z).

Definition ofNat (n : nat) : string := ofZ (Z.of_nat n).

Definition isUpper (c : ascii) : bool :=
  let n := nat_of_ascii c in (Nat.leb 65 n && Nat.leb n 90)%bool.
Definition isLower (c : ascii) : bool :=
  let n := nat_of_ascii c in (Nat.leb 97 n && Nat.leb n 122)%bool.
Definition isDigit (c : ascii) : bool :=
  let n := nat_of_ascii c in (Nat.leb 48 n && Nat.leb n 57)%bool.

(** The regular-expression class [\w]: letters, digits and the underscore. *)
Definition isWordChar (c : ascii) : bool :=
  (isUpper c || isLower c || isDigit c || Ascii.eqb c "_"%char)%bool.

(** A line terminator, which the regular-expression dot does not match. *)
Definition isLineTerminator (c : ascii) : bool :=
  (Ascii.eqb c "010"%char || Ascii.eqb c "013"%char)%bool.

Definition toLowerChar (c : ascii) : ascii :=
  if isUpper c then ascii_of_nat (nat_of_ascii c + 32) else c.

(** [String.prototype.toLowerCase], as it acts on the letters A to Z (line 36
    applies it to word characters only). *)
Fixpoint toLowerCase (s : string) : string :=
  match s with
  | EmptyString => EmptyString
  | String c s' => String (toLowerChar c) (toLowerCase s')
  end.

Fixpoint forallb (p : ascii -> bool) (s : string) : bool :=
  match s with
  | EmptyString => true
  | String c s' => (p c && forallb p s')%bool
  end.

Fixpoint chars (s : string) : list ascii :=
  match s with
  | EmptyString => []
  | String c s' => c :: chars s'
  end.

End Str.

(** ** JavaScript values *)

(** A number: the integral values (whose decimal text is what ToString
    yields), NaN and the two infinities. *)
Inductive number :=
| NaN
| Infinity (negative : bool)
| Finite (z : Z).

(** The state of a native promise. *)
Inductive settlement (A : Type) :=
| Pending
| Fulfilled (v : A)
| Rejected (reason : A).
Arguments Pending {A}.
Arguments Fulfilled {A} v.
Arguments Rejected {A} reason.

(** What [instanceof Error] tells apart: a plain object, or an instance of
    [Error] (or of a subclass, [name]) with its non-enumerable [message]. *)
Inductive objectClass :=
| PlainObject
| ErrorObject (name message : string).

(** A value.  An object or array is the list of its own enumerable
    properties in enumeration order; functions are opaque. *)
Inductive value :=
| VUndefined
| VNull
| VBool (b : bool)
| VNumber (n : number)
| VString (s : string)
| VFunction
| VArray (elems : list value)
| VObject (cls : objectClass) (props : list (string * value))
| VPromise (state : settlement value).

(** [new Error(message)], and the engine's [TypeError]. *)
Definition newError (message : string) : value :=
  VObject (ErrorObject "Error" message) [].
Definition TypeError (message : string) : value :=
  VObject (ErrorObject "TypeError" message) [].

(** ToBoolean. *)
Definition truthy (v : value) : bool :=
  match v with
  | VUndefined | VNull => false
  | VBool b => b
  | VNumber NaN => false
  | VNumber (Finite z) => negb (z =? 0)
  | VNumber (Infinity _) => true
  | VString s => negb (String.eqb s EmptyString)
  | VFunction | VArray _ | VObject _ _ | VPromise _ => true
  end.

(** The [typeof] operator. *)
Definition typeof (v : value) : string :=
  match v with
  | VUndefined => "undefined"
  | VNull => "object"
  | VBool _ => "boolean"
  | VNumber _ => "number"
  | VString _ => "string"
  | VFunction => "function"
  | VArray _ | VObject _ _ | VPromise _ => "object"
  end.

(** [v instanceof Error]. *)
Definition instanceofError (v : value) : bool :=
  match v with
  | VObject (ErrorObject _ _) _ => true
  | _ => false
  end.

(** Pairs each element with its index key: ["0"], ["1"], ... *)
Fixpoint indexedFrom (i : nat) (xs : list value) : list (string * value) :=
  match xs with
  | [] => []
  | x :: rest => (Str.ofNat i, x) :: indexedFrom (S i) rest
  end.

(** The own enumerable string-keyed properties of a value, in the order
    [for ... in] filtered by [hasOwnProperty] (lines 113 to 116) and
    [JSON.stringify] visit them.  A string has its characters under index
    keys; numbers, booleans, functions and promises have none. *)
Definition ownEnumerable (v : value) : list (string * value) :=
  match v with
  | VString s => indexedFrom 0 (map (fun c => VString (String c EmptyString)) (Str.chars s))
  | VArray elems => indexedFrom 0 elems
  | VObject _ props => props
  | _ => []
  end.

(** First binding of [key] in an association list. *)
Fixpoint assoc (key : string) (props : list (string * value)) : option value :=
  match props with
  | [] => None
  | (k, x) :: rest => if String.eqb k key then Some x else assoc key rest
  end.

(** What the keys this program reads ([principalId], [context], [then],
    [catch], a context key) find beyond the own enumerable properties: the
    [then], [catch] and [finally] methods of a native promise, and [length]
    of strings and arrays. *)
Definition inheritedProperty (v : value) (key : string) : value :=
  match v with
  | VPromise _ =>
      if (String.eqb key "then" || String.eqb key "catch" || String.eqb key "finally")%bool
      then VFunction else VUndefined
  | VString s =>
      if String.eqb key "length" then VNumber (Finite (Z.of_nat (String.length s)))
      else VUndefined
  | VArray elems =>
      if String.eqb key "length" then VNumber (Finite (Z.of_nat (List.length elems)))
      else VUndefined
  | _ => VUndefined
  end.

(** Property read [v.key] or [v[key]]: [None] is the TypeError that reading
    a property of [undefined] or [null] raises. *)
Definition get (v : value) (key : string) : option value :=
  match v with
  | VUndefined | VNull => None
  | _ => Some (match assoc key (ownEnumerable v) with
               | Some x => x
               | None => inheritedProperty v key
               end)
  end.

(** ** JSON.stringify *)

Module JSON.

Definition hexDigit (n : nat) : ascii :=
  if Nat.ltb n 10 then ascii_of_nat (48 + n) else ascii_of_nat (87 + n).

(** QuoteJSONString, one character: the two-character escapes, [\u00XX] for
    the other control characters, the character itself otherwise. *)
Definition quoteChar (c : ascii) : string :=
  let n := nat_of_ascii c in
  if Nat.eqb n 8 then "\b"
  else if Nat.eqb n 9 then "\t"
  else if Nat.eqb n 10 then "\n"
  else if Nat.eqb n 12 then "\f"
  else if Nat.eqb n 13 then "\r"
  else if Nat.eqb n 34 then Str.escapedQuote
  else if Nat.eqb n 92 then "\\"
  else if Nat.ltb n 32 then
    "\u00" +:+ String (hexDigit (Nat.div n 16)) (String (hexDigit (Nat.modulo n 16)) EmptyString)
  else String c EmptyString.

Fixpoint quoteBody (s : string) : string :=
  match s with
  | EmptyString => EmptyString
  | String c s' => quoteChar c +:+ quoteBody s'
  end.

Definition quote (s : string) : string := Str.DQ +:+ quoteBody s +:+ Str.DQ.

(** SerializeJSONProperty: [None] is the [undefined] that serializing
    [undefined] or a function yields.  An object property with such a value is
    left out; an array element with such a value is written [null]. *)
Fixpoint serialize (v : value) : option string :=
  match v with
  | VUndefined | VFunction => None
  | VNull => Some "null"
  | VBool true => Some "true"
  | VBool false => Some "false"
  | VNumber (Finite z) => Some (Str.ofZ z)
  | VNumber _ => Some "null"
  | VString s => Some (quote s)
  | VArray elems =>
      Some ("[" +:+ Str.join ","
              (map (fun e => match serialize e with Some t => t | None => "null" end) elems)
            +:+ "]")
  | VObject _ props =>
      Some ("{" +:+ Str.join ","
              ((fix members (ps : list (string * value)) : list string :=
                  match ps with
                  | [] => []
                  | (k, x) :: rest =>
                      match serialize x with
                      | Some t => (quote k +:+ ":" +:+ t) :: members rest
                      | None => members rest
                      end
                  end) props)
            +:+ "}")
  | VPromise _ => Some "{}"
  end.

(** The members of an object's serialization, as [serialize] computes them. *)
Fixpoint members (ps : list (string * value)) : list string :=
  match ps with
  | [] => []
  | (k, x) :: rest =>
      match serialize x with
      | Some t => (quote k +:+ ":" +:+ t) :: members rest
      | None => members rest
      end
  end.

(** [JSON.stringify(v)]. *)
Definition stringify (v : value) : option string := serialize v.

End JSON.

(** ** The response channel, the loggers and the other collaborators *)

(** The errors this file builds with the [boom] library, by constructor;
    [badImplementation] takes a message (a string, or the error it wraps) and
    optional data. *)
Module Boom.

Inductive error :=
| unauthorized (message : string)
| forbidden (message : string)
| badImplementation (message : value) (data : value).

Definition statusCode (e : error) : Z :=
  match e with
  | unauthorized _ => 401
  | forbidden _ => 403
  | badImplementation _ _ => 500
  end.

End Boom.

(** Environment variables, as [toPlainOrEmptyObject] hands them over. *)
Definition env : Type := list (string * string).

(** The event handed to the authorizer function (lines 56 to 60). *)
Record event := mkEvent {
  type : string;
  authorizationToken : value;
  methodArn : string
}.

(** What [authenticate] does to the world, in program order.  [Later] is no
    call but a mark: what precedes it ran inside the call that is being
    followed; what follows it runs as a job of a promise, after that call and
    the code that made it have run to their end. *)
Inductive effect :=
| ConsoleLog (text : string)
| ServerlessLog (text : string) (detail : value)
| DebugLog (text : string)
| ResetEnvVariables (previous : option env) (next : env)
| Invoke (ev : event)
| Reply (err : Boom.error)
| ReplyContinue (data : value)
| Later.

(** How a piece of the program ends: it returns, an exception leaves it, or
    it has called [thenable.then(onFulfilled)] and [catch(onRejected)] on what
    that returned, for a thenable that is not a native promise: the
    thenable's own code decides whether and when the two continuations run,
    and how the call ends. *)
Inductive ending :=
| Returned
| Threw (exn : value)
| HandedOver (thenable : value)
             (onFulfilled onRejected : value -> list effect * ending).

(** The effects of a run and how it ended. *)
Definition run : Type := list effect * ending.

(** Sequential composition within one call: [k] runs only if [r] returned;
    after an exception or a hand-over the call is followed no further. *)
Definition andThen (r k : run) : run :=
  match r.2 with
  | Returned => (r.1 ++ k.1, k.2)
  | _ => r
  end.

Definition isReply (e : effect) : bool :=
  match e with
  | Reply _ | ReplyContinue _ => true
  | _ => false
  end.

(** The calls of [reply] and [reply.continue] among the effects. *)
Definition replies (es : list effect) : list effect := List.filter isReply es.

(** A value returned, or an exception thrown. *)
Inductive outcome (A : Type) :=
| Return (a : A)
| Throw (exn : value).
Arguments Return {A} a.
Arguments Throw {A} exn.

(** ** Construction of the scheme (lines 11 to 38) *)

(** The regular expression of line 31, piece by piece.  Each matcher consumes
    a prefix of its input and returns the rest. *)
Module Regex.

(** The characters of [pat], literally. *)
Fixpoint literal (pat s : string) : option string :=
  match pat, s with
  | EmptyString, _ => Some s
  | String _ _, EmptyString => None
  | String a pat', String b s' => if Ascii.eqb a b then literal pat' s' else None
  end.

(** An unescaped dot: any one character that is no line terminator. *)
Definition dot (s : string) : option string :=
  match s with
  | EmptyString => None
  | String c s' => if Str.isLineTerminator c then None else Some s'
  end.

(** The group [(\w+)] followed by the end of the input: the rest is one or
    more word characters, all of them captured. *)
Definition wordToEnd (s : string) : option string :=
  match s with
  | EmptyString => None
  | String _ _ => if Str.forallb Str.isWordChar s then Some s else None
  end.

(** [/^method.request.header.(\w+)$/.exec(s)]: the capture group of a match,
    [None] for [null].  A match always has length 2 (the whole match and the
    one group). *)
Definition exec (s : string) : option string :=
  r ← literal "method" s; r ← dot r;
  r ← literal "request" r; r ← dot r;
  r ← literal "header" r; r ← dot r;
  wordToEnd r.

End Regex.

(** The grammar the specification names: the text [method.request.header.]
    with its three full stops, then a word token.  Stated after the spec, to
    compare [Regex.exec] with. *)
Definition exactIdentitySource (s : string) : Prop :=
  exists token, s = "method.request.header." +:+ token /\
                token <> EmptyString /\ Str.forallb Str.isWordChar token = true.

(** The exception of a property read on [undefined] or [null]. *)
Definition cannotRead (key : string) (target : value) : value :=
  TypeError ("Cannot read property '" +:+ key +:+ "' of "
             +:+ match target with
                 | VNull => "null"
                 | _ => "undefined"
                 end).

Record options := mkOptions {
  stage : string;
  region : string
}.

(** [authorizerOptions], when it has properties to read: its [type], and
    its [identitySource] as the text that [exec] makes of it. *)
Record authorizerOptions := mkAuthorizer {
  authorizerType : value;
  identitySource : string
}.

(** [populatedAuthFun.authorizer]: [undefined] or [null], or settings. *)
Inductive authorizerSetting :=
| NoAuthorizer (isNull : bool)
| Authorizer (settings : authorizerOptions).

(** [populatedAuthFun]: the authorizer and, for [environment], the plain
    object [toPlainOrEmptyObject] makes of it (line 63). *)
Record populatedFunction := mkPopulated {
  authorizer : authorizerSetting;
  environment : env
}.

(** [type !== 'TOKEN'] (line 27). *)
Definition isNotToken (type : value) : bool :=
  match type with
  | VString t => negb (String.eqb t "TOKEN")
  | _ => true
  end.

(** [authFun]: its name, and what [toObjectPopulated] does with the stage
    and region. *)
Record functionObject := mkFunction {
  name : string;
  toObjectPopulated : options -> outcome populatedFunction
}.

(** [functionHelper], as far as construction uses it: what
    [getFunctionOptions(authFun, populatedAuthFun)] does (line 38). *)
Record functionHelper := mkHelper {
  getFunctionOptions : functionObject -> populatedFunction -> outcome value
}.

(** What the closure returned at line 41 keeps of its surroundings. *)
Record scheme := mkScheme {
  authFunName : string;
  identityHeader : string;
  funRuntime : string;
  funOptions : value;
  funName : string;
  endpointPath : string;
  schemeOptions : options;
  newEnvVars : env
}.

Definition createAuthScheme (helper : functionHelper) (authFun : functionObject)
    (funRuntime funName endpointPath : string) (options : options)
    : list effect * outcome scheme :=
  let authFunName := name authFun in
  match toObjectPopulated authFun options with
  | Throw err =>
      ([DebugLog ("Error while populating function '" +:+ authFunName +:+ "' with stage '"
                  +:+ stage options +:+ "' and region '" +:+ region options +:+ "':")],
       Throw err)
  | Return populatedAuthFun =>
      match authorizer populatedAuthFun with
      | NoAuthorizer isNull =>
          ([], Throw (cannotRead "type" (if isNull then VNull else VUndefined)))
      | Authorizer authorizerOptions =>
          if isNotToken (authorizerType authorizerOptions) then
            ([], Throw (newError ("Authorizer Type must be TOKEN (λ: "
                                  +:+ authFunName +:+ ")")))
          else
            match Regex.exec (identitySource authorizerOptions) with
            | None =>
                ([], Throw (newError
                   ("Serverless Offline only supports retrieving tokens from the headers (λ: "
                    +:+ authFunName +:+ ")")))
            | Some group =>
                match getFunctionOptions helper authFun populatedAuthFun with
                | Throw err => ([], Throw err)
                | Return funOptions =>
                    ([], Return {| authFunName := authFunName;
                                   identityHeader := Str.toLowerCase group;
                                   funRuntime := funRuntime;
                                   funOptions := funOptions;
                                   funName := funName;
                                   endpointPath := endpointPath;
                                   schemeOptions := options;
                                   newEnvVars := environment populatedAuthFun |})
                end
            end
      end
  end.

(** ** One request (lines 43 to 149) *)

Record request := mkRequest {
  method : string;
  path : string;
  headers : gmap string string
}.

(** The methods that every plain object inherits from [Object.prototype]. *)
Definition objectPrototypeMethods : list string :=
  ["constructor"; "hasOwnProperty"; "isPrototypeOf"; "propertyIsEnumerable";
   "toLocaleString"; "toString"; "valueOf"; "__defineGetter__"; "__defineSetter__";
   "__lookupGetter__"; "__lookupSetter__"].

(** What a property read finds on a plain object that has no own property
    [key]: an inherited method, the prototype itself for [__proto__],
    [undefined] otherwise. *)
Definition objectPrototypeProperty (key : string) : value :=
  if existsb (String.eqb key) objectPrototypeMethods then VFunction
  else if String.eqb key "__proto__" then VObject PlainObject []
  else VUndefined.

(** Line 49, [req.headers[identityHeader]]: [headers] holds the own
    properties of the headers object, which the HTTP server keeps under
    lower-cased names; a name the request does not have is read from the
    object's prototype. *)
Definition authorization (s : scheme) (req : request) : value :=
  match headers req !! identityHeader s with
  | Some v => VString v
  | None => objectPrototypeProperty (identityHeader s)
  end.

(** The same read inside the template literal of line 51: a header value is
    its own text, an inherited method the text of a native function, the
    prototype the text of a plain object. *)
Definition authorizationText (s : scheme) (req : request) : string :=
  match headers req !! identityHeader s with
  | Some v => v
  | None =>
      let key := identityHeader s in
      if String.eqb key "constructor" then "function Object() { [native code] }"
      else if existsb (String.eqb key) objectPrototypeMethods
      then "function " +:+ key +:+ "() { [native code] }"
      else if String.eqb key "__proto__" then "[object Object]"
      else "undefined"
  end.

Definition createEvent (s : scheme) (req : request) : event :=
  {| type := "TOKEN";
     authorizationToken := authorization s req;
     methodArn := "arn:aws:execute-api:" +:+ region (schemeOptions s)
                  +:+ ":<Account id>:<API id>/" +:+ stage (schemeOptions s)
                  +:+ "/" +:+ funName s +:+ "/" +:+ endpointPath s |}.

(** Lines 79 to 82. *)
Definition onError (s : scheme) (error : value) : run :=
  ([ServerlessLog ("Authorization function returned an error response: (λ: "
                   +:+ authFunName s +:+ ")") error;
    Reply (Boom.unauthorized "Unauthorized")],
   Returned).

(** Line 118. *)
Definition allowedTypes : list string := ["number"; "string"; "boolean"].

(** [allowedTypes.includes(keyType)]. *)
Definition allowed (keyType : string) : bool :=
  existsb (String.eqb keyType) allowedTypes.

(** [typeof context[key]] (line 119); [context] is truthy there, so the
    read raises nothing. *)
Definition keyTypeOf (context : value) (key : string) : string :=
  match get context key with
  | Some x => typeof x
  | None => "undefined"
  end.

(** The loop of lines 113 to 125 over the own keys of [context], up to the
    first key whose value has a type that is not allowed: that key and the
    type, or [None] when the loop runs to its end. *)
Fixpoint firstNotAllowed (context : value) (keys : list string) : option (string * string) :=
  match keys with
  | [] => None
  | key :: rest =>
      let keyType := keyTypeOf context key in
      if allowed keyType then firstNotAllowed context rest
      else Some (key, keyType)
  end.

(** [continueData] of line 110, with the context of line 128 when given. *)
Definition continueData (principalId : value) (context : option value) : value :=
  VObject PlainObject
    [("credentials",
      VObject PlainObject
        (("user", principalId) ::
         match context with
         | Some c => [("context", c)]
         | None => []
         end))].

(** Lines 88 to 135; [err] is the callback's first argument, which the log
    calls pass along. *)
Definition onSuccess (s : scheme) (err policy : value) : run :=
  match JSON.stringify policy with
  | None => ([], Threw (cannotRead "indexOf" VUndefined))
  | Some jsonPolicy =>
      let invalidSymbolPosition := Str.indexOf jsonPolicy Str.escapedQuote in
      if negb (invalidSymbolPosition =? -1) then
        ([ServerlessLog ("Invalid auth data at position " +:+ Str.ofZ invalidSymbolPosition
                         +:+ ": (λ: " +:+ authFunName s +:+ ")") err;
          Reply (Boom.badImplementation
                   (VString ("Invalid auth data at position "
                             +:+ Str.ofZ invalidSymbolPosition
                             +:+ ". Data: " +:+ jsonPolicy))
                   VUndefined)],
         Returned)
      else
        match get policy "principalId" with
        | None => ([], Threw (cannotRead "principalId" policy))
        | Some principalId =>
            if negb (truthy principalId) then
              ([ServerlessLog ("Authorization response did not include a principalId: (λ: "
                               +:+ authFunName s +:+ ")") err;
                Reply (Boom.forbidden "No principalId set on the Response")],
               Returned)
            else if negb (String.eqb (typeof principalId) "string") then
              ([ServerlessLog
                  ("Authorization response error: principalId can be only a String: (λ: "
                   +:+ authFunName s +:+ ")") err;
                Reply (Boom.badImplementation (VString "principalId is not a string")
                         VUndefined)],
               Returned)
            else
              let success (context : option value) : run :=
                ([ServerlessLog
                    ("Authorization function returned a successful response: (λ: "
                     +:+ authFunName s +:+ ")") policy;
                  ReplyContinue (continueData principalId context)],
                 Returned) in
              match get policy "context" with
              | None => ([], Threw (cannotRead "context" policy))
              | Some context =>
                  if truthy context then
                    match firstNotAllowed context (map fst (ownEnumerable context)) with
                    | Some (key, keyType) =>
                        ([ServerlessLog
                            ("Context key " +:+ key +:+ " has type " +:+ keyType
                             +:+ ", allowed only (" +:+ Str.join ", " allowedTypes
                             +:+ "): (λ: " +:+ authFunName s +:+ ")") err;
                          Reply (Boom.badImplementation
                                   (VString "Not allowed context key ${keyType}")
                                   VUndefined)],
                         Returned)
                    | None => success (Some context)
                    end
                  else success None
              end
        end
  end.

(** How the completion of line 137 to 144 is told apart; the specification
    names the three cases Error, Deferred and Value. *)
Inductive classification :=
| IsError (cause : value)
| Deferred (promiseLike : value)
| Value (policy : value).

Definition isFunction (o : option value) : bool :=
  match o with
  | Some x => String.eqb (typeof x) "function"
  | None => false
  end.

(** The tests of lines 84, 137 and 140, in their order. *)
Definition classify (err result : value) : classification :=
  if truthy err then IsError err
  else if (truthy result && isFunction (get result "then")
           && isFunction (get result "catch"))%bool then Deferred result
  else if instanceofError result then IsError result
  else Value result.

(** What a promise in state [state] does with the continuations that
    [then(onFulfilled)] and, on the promise that [then] returns,
    [catch(onRejected)] attach, by the rules of promises: nothing while it
    is pending; once fulfilled, [onFulfilled] runs, and an exception it
    throws rejects the promise that [then] returned, so [onRejected] runs
    with it; once rejected, [onRejected] runs with the reason.  No
    continuation runs inside the call that attached it: each runs as a job
    of its own, which [Later] marks, and the attaching call returns. *)
Definition settle (onFulfilled onRejected : value -> run)
    (state : settlement value) : run :=
  match state with
  | Pending => ([], Returned)
  | Fulfilled v =>
      match onFulfilled v with
      | (es, Threw exn) => (Later :: es ++ Later :: (onRejected exn).1, Returned)
      | (es, _) => (Later :: es, Returned)
      end
  | Rejected reason => (Later :: (onRejected reason).1, Returned)
  end.

(** [result.then(onSuccess).catch(onError)] (line 139).  A native promise
    settles as its state says.  Any other thenable is handed the two
    continuations: its own [then] decides what becomes of them. *)
Definition awaitDeferred (onSuccess onError : value -> run) (result : value) : run :=
  match result with
  | VPromise state => settle onSuccess onError state
  | _ => ([], HandedOver result onSuccess onError)
  end.

(** The callback given to [createLambdaContext] (lines 77 to 145). *)
Definition completionCallback (s : scheme) (err result : value) : run :=
  match classify err result with
  | IsError cause => onError s cause
  | Deferred promiseLike =>
      andThen ([DebugLog "Auth function returned a promise"], Returned)
              (awaitDeferred (onSuccess s err) (onError s) promiseLike)
  | Value policy => onSuccess s err policy
  end.

(** The context object of the invocation. *)
Record lambdaContext := mkContext {
  done : value -> value -> run
}.

(** Modelled from the spec: [createLambdaContext], whose file is not among
    the sources.  The specification (section 6) says it takes the completion
    callback and returns a context object exposing a [done] callback
    compatible with the handler; here [done] is that callback. *)
Definition createLambdaContext (cb : value -> value -> run) : lambdaContext :=
  {| done := cb |}.

(** The authorizer function as the invocation harness runs it: given the
    event, the completions [(error, result)] it passes to [done], in
    order. *)
Definition handler : Type := event -> list (value * value).

(** Line 148: each completion goes to [done].  The effects are listed
    completion by completion, in the order of the calls; for completions
    handled at once that is their order in time, while the reaction to a
    promise is listed with its completion, behind [Later], though it may
    run after the calls that follow.  A thenable that is no native promise
    leaves only the debug line in the list: the calls that its [then] makes
    of the continuations are its own.  An exception that leaves [done] goes
    to the handler, and the run is followed no further. *)
Fixpoint deliver (ctx : lambdaContext) (completions : list (value * value)) : run :=
  match completions with
  | [] => ([], Returned)
  | (err, result) :: rest =>
      let r := done ctx err result in
      match r.2 with
      | Threw exn => r
      | _ => (r.1 ++ (deliver ctx rest).1, (deliver ctx rest).2)
      end
  end.

(** [authenticate(request, reply)]: [envVars] is [this.envVars] before the
    call, [created] what [functionHelper.createHandler(funRuntime, funOptions,
    options)] (line 71) did.  The result is the run and [this.envVars] after
    it. *)
Definition authenticate (s : scheme) (envVars : option env) (req : request)
    (created : outcome handler) : run * option env :=
  let event := createEvent s req in
  let before :=
    [ConsoleLog EmptyString;
     ServerlessLog ("Running Authorization function for " +:+ method req +:+ " "
                    +:+ path req +:+ " (λ: " +:+ authFunName s +:+ ")") VUndefined;
     DebugLog ("Retrieved " +:+ identityHeader s +:+ " header "
               +:+ authorizationText s req);
     ResetEnvVariables envVars (newEnvVars s)] in
  (match created with
   | Throw err =>
       (before ++ [Reply (Boom.badImplementation err
                            (VString ("Error while loading " +:+ authFunName s)))],
        Returned)
   | Return handler =>
       let lambdaContext := createLambdaContext (completionCallback s) in
       andThen (before ++ [Invoke event], Returned)
               (deliver lambdaContext (handler event))
   end,
   Some (newEnvVars s)).

(** ** Sample data *)

Module Sample.

Definition opts : options := {| stage := "dev"; region := "us-east-1" |}.

(** A populated function with a [TOKEN] authorizer and no environment. *)
Definition populated (source : string) : populatedFunction :=
  {| authorizer := Authorizer {| authorizerType := VString "TOKEN";
                                 identitySource := source |};
     environment := [] |}.

Definition authorizerFunction (source : string) : functionObject :=
  {| name := "authorizerFn";
     toObjectPopulated := fun _ => Return (populated source) |}.

(** A function that is populated without an authorizer. *)
Definition plainFunction : functionObject :=
  {| name := "hello";
     toObjectPopulated := fun _ =>
       Return {| authorizer := NoAuthorizer false; environment := [] |} |}.

(** A function helper whose [getFunctionOptions] returns an empty object. *)
Definition helper : functionHelper :=
  {| getFunctionOptions := fun _ _ => Return (VObject PlainObject []) |}.

Definition theScheme : scheme :=
  {| authFunName := "authorizerFn";
     identityHeader := "authorization";
     funRuntime := "nodejs";
     funOptions := VObject PlainObject [];
     funName := "hello";
     endpointPath := "users/{id}";
     schemeOptions := opts;
     newEnvVars := [] |}.

Definition theRequest : request :=
  {| method := "get"; path := "/users/7";
     headers := {[ "authorization" := "abc123" ]} |}.

(** A request without headers. *)
Definition bareRequest : request :=
  {| method := "get"; path := "/users/7"; headers := ∅ |}.

(** The scheme built from the identity source
    [method.request.header.constructor]. *)
Definition constructorScheme : scheme :=
  {| authFunName := "authorizerFn";
     identityHeader := "constructor";
     funRuntime := "nodejs";
     funOptions := VObject PlainObject [];
     funName := "hello";
     endpointPath := "users/{id}";
     schemeOptions := opts;
     newEnvVars := [] |}.

Definition obj (props : list (string * value)) : value := VObject PlainObject props.

(** The policy [{ principalId: "u", context: { bad: {} } }]. *)
Definition badContextPolicy : value :=
  obj [("principalId", VString "u"); ("context", obj [("bad", obj [])])].

(** The policy [{ principalId: "user1" }]. *)
Definition user1Policy : value := obj [("principalId", VString "user1")].

(** A handler that calls back twice with the same policy. *)
Definition completesTwice : handler := fun _ => [(VNull, user1Policy); (VNull, user1Policy)].

(** A thenable made by hand: a plain object with methods [then] and
    [catch]. *)
Definition thenable : value := obj [("then", VFunction); ("catch", VFunction)].

(** The policy [{ principalId: "u", context: { role: "admin", level: 3,
    active: true } }]. *)
Definition roleContext : value :=
  obj [("role", VString "admin"); ("level", VNumber (Finite 3)); ("active", VBool true)].
Definition roleContextPolicy : value :=
  obj [("principalId", VString "u"); ("context", roleContext)].

(** A policy whose [principalId] is [x] followed by a backslash. *)
Definition backslashPolicy : value :=
  obj [("principalId", VString (String "x" (String Str.backslash EmptyString)))].

(** A handler that completes once, with no error and [result]. *)
Definition completesWith (result : value) : handler := fun _ => [(VNull, result)].

(** A policy whose [principalId] is a double quote followed by [x], and its
    serialization. *)
Definition quotedPolicy : value := obj [("principalId", VString (String Str.dquote "x"))].
Definition quotedJson : string :=
  Eval vm_compute in default EmptyString (JSON.stringify quotedPolicy).

End Sample.


(** ** Notions of the specification *)

(** A string, a number or a boolean. *)
Definition isScalar (v : value) : bool :=
  match v with
  | VString _ | VNumber _ | VBool _ => true
  | _ => false
  end.

(** A policy as the specification's data model wants it: an object whose
    [principalId] is a string (not the empty one, which is falsy) and whose
    [context], when it has one, is an object of scalars. *)
Definition validPolicy (policy : value) : Prop :=
  exists cls props principalId,
    policy = VObject cls props /\
    assoc "principalId" props = Some (VString principalId) /\
    principalId <> EmptyString /\
    match assoc "context" props with
    | None => True
    | Some (VObject _ entries) => Forall (fun kv => isScalar kv.2 = true) entries
    | Some _ => False
    end.

(** A string value of the policy, its [principalId] or one of its context
    values, holds a double-quote character. *)
Definition hasQuoteInString (policy : value) : Prop :=
  (exists text, get policy "principalId" = Some (VString text) /\
                Str.includes text Str.DQ) \/
  (exists context key text,
     get policy "context" = Some context /\
     In (key, VString text) (ownEnumerable context) /\
     Str.includes text Str.DQ).

(** ** Notions of the further properties *)

(** A word character that is no capital letter. *)
Definition isLowerWordChar (c : ascii) : bool :=
  (Str.isWordChar c && negb (Str.isUpper c))%bool.

(** The last character of a string. *)
Fixpoint lastChar (s : string) : option ascii :=
  match s with
  | EmptyString => None
  | String c EmptyString => Some c
  | String _ s' => lastChar s'
  end.

(** [effect]s of the kinds the theorems single out. *)
Definition isInvoke (e : effect) : bool :=
  match e with
  | Invoke _ => true
  | _ => false
  end.

Definition isReset (e : effect) : bool :=
  match e with
  | ResetEnvVariables _ _ => true
  | _ => false
  end.

(** The two characters backslash and double quote stand side by side
    somewhere in [s]: [s.indexOf] of them is not [-1]. *)
Fixpoint hasEscapedQuote (s : string) : bool :=
  match s with
  | EmptyString => false
  | String a s' =>
      match s' with
      | EmptyString => false
      | String b _ =>
          (Ascii.eqb Str.backslash a && Ascii.eqb Str.dquote b) || hasEscapedQuote s'
      end
  end.

Definition endsWithBackslash (s : string) : bool :=
  match lastChar s with
  | Some c => Ascii.eqb Str.backslash c
  | None => false
  end.

Definition startsWithQuote (s : string) : bool :=
  match s with
  | EmptyString => false
  | String c _ => Ascii.eqb Str.dquote c
  end.

(** A string that the guard of line 94 objects to once it is serialized: it
    holds a double quote, or it ends in a backslash. *)
Definition tripsGuard (text : string) : bool :=
  (existsb (Ascii.eqb Str.dquote) (Str.chars text) || endsWithBackslash text)%bool.

(** The strings that [JSON.stringify] writes for a value: its string values
    and the keys of its objects, at every depth; a property whose value is
    [undefined] or a function is left out, key and all. *)
Fixpoint serializedStrings (v : value) : list string :=
  match v with
  | VString text => [text]
  | VArray elems => flat_map serializedStrings elems
  | VObject _ props =>
      (fix keysAndValues (ps : list (string * value)) : list string :=
         match ps with
         | [] => []
         | (k, x) :: rest =>
             match x with
             | VUndefined | VFunction => keysAndValues rest
             | _ => k :: serializedStrings x ++ keysAndValues rest
             end
         end) props
  | _ => []
  end.

(** The strings of an object's members, as [serializedStrings] lists them. *)
Fixpoint memberStrings (ps : list (string * value)) : list string :=
  match ps with
  | [] => []
  | (k, x) :: rest =>
      match x with
      | VUndefined | VFunction => memberStrings rest
      | _ => k :: serializedStrings x ++ memberStrings rest
      end
  end.

(** The run ended by handing its continuations to a thenable. *)
Definition handsOver (r : run) : bool :=
  match r.2 with
  | HandedOver _ _ _ => true
  | _ => false
  end.

(** [result] is in state [state]: a native promise carries its state; of any
    other thenable the state is whatever its own code makes it. *)
Definition settlesAs (result : value) (state : settlement value) : Prop :=
  match result with
  | VPromise own => own = state
  | _ => True
  end.

(** What a run comes to when the thenable it handed its continuations to,
    if any, is in state [state] and keeps the rules of promises, that is,
    treats the continuations as [settle] does. *)
Definition whenSettled (r : run) (state : settlement value) : run :=
  match r.2 with
  | HandedOver _ onFulfilled onRejected =>
      (r.1 ++ (settle onFulfilled onRejected state).1,
       (settle onFulfilled onRejected state).2)
  | _ => r
  end.

(** No effect in the list is an invocation of the handler or a reset of the
    environment. *)
Definition quiet (es : list effect) : Prop :=
  List.filter isInvoke es = [] /\ List.filter isReset es = [].

(** * Facts *)

(** ** Strings: prefixes, occurrences, [indexOf] *)

Module StrFacts.
Import Str.

Lemma app_nil_l (s : string) : EmptyString +:+ s = s.
Proof. reflexivity. Qed.

Lemma app_cons (c : ascii) (s t : string) : String c s +:+ t = String c (s +:+ t).
Proof. reflexivity. Qed.

Lemma app_nil_r (s : string) : s +:+ EmptyString = s.
Proof. induction s as [|c s IH]; [done|]. by rewrite app_cons, IH. Qed.

Lemma app_assoc (s t u : string) : (s +:+ t) +:+ u = s +:+ t +:+ u.
Proof. induction s as [|c s IH]; [done|]. by rewrite !app_cons, IH. Qed.

Lemma length_app (s t : string) :
  String.length (s +:+ t) = (String.length s + String.length t)%nat.
Proof. induction s as [|c s IH]; [done|]. rewrite app_cons. simpl. by rewrite IH. Qed.

Lemma startsWith_spec (pat s : string) :
  startsWith pat s = true <-> exists post, s = pat +:+ post.
Proof.
  revert s. induction pat as [|a pat IH]; intros s; simpl.
  - split; [intros _; by exists s | done].
  - destruct s as [|b s].
    + split; [done | intros [post H]; by rewrite app_cons in H].
    + destruct (Ascii.eqb_spec a b) as [->|Hne].
      * rewrite IH. split; intros [post H]; exists post.
        -- by rewrite app_cons, H.
        -- rewrite app_cons in H. by simplify_eq.
      * split; [done | intros [post H]]. rewrite app_cons in H. by simplify_eq.
Qed.

Lemma occursAt_0 (pat s : string) : occursAt pat s 0 <-> startsWith pat s = true.
Proof.
  rewrite startsWith_spec. split.
  - intros ([|c pre] & post & -> & Hlen); [|done]. by exists post.
  - intros [post ->]. by exists EmptyString, post.
Qed.

Lemma occursAt_S (pat : string) (c : ascii) (s : string) (n : nat) :
  occursAt pat (String c s) (S n) <-> occursAt pat s n.
Proof.
  split.
  - intros ([|c' pre] & post & Heq & Hlen); [done|].
    rewrite app_cons in Heq. simpl in Hlen. simplify_eq. by exists pre, post.
  - intros (pre & post & -> & Hlen). exists (String c pre), post.
    rewrite app_cons. simpl. by rewrite Hlen.
Qed.

Lemma occursAt_empty_S (pat : string) (n : nat) : ~ occursAt pat EmptyString (S n).
Proof. by intros ([|c pre] & post & Heq & Hlen). Qed.

(** What [indexOfFrom] returns: [-1] exactly when there is no occurrence,
    the offset of the first occurrence otherwise. *)
Lemma indexOfFrom_cases (pat s : string) (i : Z) :
  (indexOfFrom pat s i = -1 /\ (0 <= i -> forall n, ~ occursAt pat s n)) \/
  (exists n : nat, indexOfFrom pat s i = i + Z.of_nat n /\ occursAt pat s n /\
                   forall m : nat, (m < n)%nat -> ~ occursAt pat s m) .
Proof.
  revert i. induction s as [|c s IH]; intros i.
  - simpl. destruct (startsWith pat EmptyString) eqn:Hstart.
    + right. exists 0%nat. split; [lia|]. split; [by apply occursAt_0 | lia].
    + left. split; [done|]. intros _ [|n] Hocc.
      * apply occursAt_0 in Hocc. congruence.
      * by apply occursAt_empty_S in Hocc.
  - simpl. destruct (startsWith pat (String c s)) eqn:Hstart.
    + right. exists 0%nat. split; [lia|]. split; [by apply occursAt_0 | lia].
    + destruct (IH (i + 1)) as [[Hnone Hno]|(n & Hidx & Hocc & Hmin)].
      * destruct (decide (0 <= i)) as [Hi|Hi].
        -- left. split; [done|]. intros _ [|n] Hocc'.
           ++ apply occursAt_0 in Hocc'. congruence.
           ++ apply occursAt_S in Hocc'. apply (Hno ltac:(lia) n Hocc').
        -- left. split; [done | lia].
      * right. exists (S n). split; [lia|]. split; [by apply occursAt_S|].
        intros [|m] Hm Hocc'.
        -- apply occursAt_0 in Hocc'. congruence.
        -- apply occursAt_S in Hocc'. apply (Hmin m); [lia | done].
Qed.

(** [indexOf] finds the first occurrence when there is one. *)
Lemma indexOf_first (s pat : string) :
  includes s pat ->
  exists n : nat, indexOf s pat = Z.of_nat n /\ occursAt pat s n /\
                  forall m : nat, (m < n)%nat -> ~ occursAt pat s m.
Proof.
  intros [k Hk]. unfold indexOf.
  destruct (indexOfFrom_cases pat s 0) as [[_ Hno]|(n & Hidx & Hocc & Hmin)].
  - destruct (Hno ltac:(lia) k Hk).
  - exists n. split; [lia | done].
Qed.

(** [indexOf] is [-1] exactly when there is no occurrence. *)
Lemma indexOf_none (s pat : string) : indexOf s pat = -1 <-> ~ includes s pat.
Proof.
  unfold indexOf. split.
  - intros Hidx [k Hk].
    destruct (indexOfFrom_cases pat s 0) as [[_ Hno]|(n & Hn & _)].
    + apply (Hno ltac:(lia) k Hk).
    + lia.
  - intros Hno.
    destruct (indexOfFrom_cases pat s 0) as [[Hidx _]|(n & _ & Hocc & _)]; [done|].
    destruct Hno. by exists n.
Qed.

(** A position other than [-1] is the position of an occurrence. *)
Lemma indexOf_found (s pat : string) : indexOf s pat <> -1 -> includes s pat.
Proof.
  intros Hidx. unfold indexOf in Hidx.
  destruct (indexOfFrom_cases pat s 0) as [[Hnone _]|(n & _ & Hocc & _)]; [done|].
  by exists n.
Qed.

Lemma includes_intro (pre pat post : string) : includes (pre +:+ pat +:+ post) pat.
Proof. exists (String.length pre), pre, post. done. Qed.

Lemma includes_refl (s : string) : includes s s.
Proof. exists 0%nat, EmptyString, EmptyString. by rewrite app_nil_r. Qed.

Lemma includes_app_l (s t pat : string) : includes s pat -> includes (s +:+ t) pat.
Proof.
  intros (n & pre & post & -> & _).
  rewrite !app_assoc. apply includes_intro.
Qed.

Lemma includes_app_r (s t pat : string) : includes t pat -> includes (s +:+ t) pat.
Proof.
  intros (n & pre & post & -> & _).
  rewrite <- (app_assoc s pre). apply includes_intro.
Qed.

Lemma includes_join (sep : string) (xs : list string) (x pat : string) :
  In x xs -> includes x pat -> includes (join sep xs) pat.
Proof.
  intros Hin Hx. induction xs as [|y xs IH]; [done|].
  destruct Hin as [->|Hin].
  - destruct xs as [|z xs]; [done|]. by apply includes_app_l.
  - destruct xs as [|z xs]; [done|].
    change (includes (y +:+ sep +:+ join sep (z :: xs)) pat).
    apply includes_app_r, includes_app_r. by apply IH.
Qed.

End StrFacts.

(** ** Serialization *)

Module JSONFacts.
Import Str StrFacts JSON.

Lemma quoteChar_dquote : quoteChar dquote = escapedQuote.
Proof. reflexivity. Qed.

Lemma quoteBody_app (s t : string) : quoteBody (s +:+ t) = quoteBody s +:+ quoteBody t.
Proof.
  induction s as [|c s IH]; [done|].
  rewrite app_cons. simpl. by rewrite IH, app_assoc.
Qed.

(** A double quote inside a string is written as the escaped quote. *)
Lemma quote_escapes (s : string) : includes s DQ -> includes (quote s) escapedQuote.
Proof.
  intros (n & pre & post & -> & _). unfold quote.
  rewrite !quoteBody_app. change (quoteBody DQ) with (escapedQuote +:+ EmptyString).
  apply includes_app_r, includes_app_l, includes_app_r, includes_app_l, includes_app_l.
  exists 0%nat, EmptyString, EmptyString. by rewrite app_nil_r.
Qed.

Lemma serialize_object (cls : objectClass) (props : list (string * value)) :
  serialize (VObject cls props) = Some ("{" +:+ join "," (members props) +:+ "}").
Proof. reflexivity. Qed.

Lemma serialize_string (s : string) : serialize (VString s) = Some (quote s).
Proof. reflexivity. Qed.

Lemma members_In (props : list (string * value)) (k : string) (x : value) (t : string) :
  In (k, x) props -> serialize x = Some t -> In (quote k +:+ ":" +:+ t) (members props).
Proof.
  intros Hin Hser. induction props as [|[k' x'] props IH]; [done|].
  cbn [members]. destruct Hin as [Heq|Hin].
  - simplify_eq. rewrite Hser. by left.
  - destruct (serialize x'); [right|]; by apply IH.
Qed.

(** Whatever one member holds, the whole object's text holds. *)
Lemma object_includes (props : list (string * value))
    (k : string) (x : value) (t pat : string) :
  In (k, x) props -> serialize x = Some t -> includes t pat ->
  includes ("{" +:+ join "," (members props) +:+ "}") pat.
Proof.
  intros Hin Hser Ht.
  apply includes_app_r, includes_app_l.
  apply (includes_join _ _ (quote k +:+ ":" +:+ t)).
  - by apply (members_In props k x).
  - by apply includes_app_r, includes_app_r.
Qed.

Lemma assoc_In (key : string) (props : list (string * value)) (x : value) :
  assoc key props = Some x -> In (key, x) props.
Proof.
  induction props as [|[k y] props IH]; [done|]. simpl.
  destruct (String.eqb_spec k key) as [->|_].
  - intros [= ->]. by left.
  - intros H. right. by apply IH.
Qed.

End JSONFacts.

(** ** Policy validation (lines 88 to 135) *)

Section Validation.
Import Str StrFacts JSON JSONFacts.

Variable s : scheme.
Variable err : value.

(** The run of the branch of lines 94 to 97 for a given position. *)
Lemma onSuccess_guard (policy : value) (json : string) :
  stringify policy = Some json ->
  includes json escapedQuote ->
  exists position : nat,
    occursAt escapedQuote json position /\
    (forall m : nat, (m < position)%nat -> ~ occursAt escapedQuote json m) /\
    onSuccess s err policy =
      ([ServerlessLog ("Invalid auth data at position " +:+ ofNat position
                       +:+ ": (λ: " +:+ authFunName s +:+ ")") err;
        Reply (Boom.badImplementation
                 (VString ("Invalid auth data at position " +:+ ofNat position
                           +:+ ". Data: " +:+ json))
                 VUndefined)],
       Returned).
Proof.
  intros Hjson Hinc.
  destruct (indexOf_first json escapedQuote Hinc) as (n & Hidx & Hocc & Hmin).
  exists n. split; [done|]. split; [done|].
  unfold onSuccess. rewrite Hjson. cbv zeta. rewrite Hidx.
  destruct (Z.eqb_spec (Z.of_nat n) (-1)) as [Hneg|_]; [lia|]. reflexivity.
Qed.

(** Past the guard: the serialization holds no escaped quote. *)
Lemma onSuccess_past_guard (policy : value) (json : string) :
  stringify policy = Some json ->
  ~ includes json escapedQuote ->
  (indexOf json escapedQuote =? -1) = true.
Proof. intros _ Hno. apply Z.eqb_eq. by apply indexOf_none. Qed.

(** C9.  A policy whose serialization holds the escaped double quote gets
    the internal-error response (status 500) whose message gives the position
    of the first occurrence and the serialized policy.  Nothing is asked of
    [principalId]: the check comes before those of lines 100 to 108.  The
    same run follows when the policy arrives as a plain value (classified
    [Value]) and, after the debug line, when a native promise is fulfilled
    with it. *)
Theorem escaped_quote_guard_comes_first (policy : value) (json : string) :
  stringify policy = Some json ->
  includes json escapedQuote ->
  exists position : nat,
    let response :=
      Boom.badImplementation
        (VString ("Invalid auth data at position " +:+ ofNat position
                  +:+ ". Data: " +:+ json))
        VUndefined in
    let guarded : run :=
      ([ServerlessLog ("Invalid auth data at position " +:+ ofNat position
                       +:+ ": (λ: " +:+ authFunName s +:+ ")") err;
        Reply response],
       Returned) in
    occursAt escapedQuote json position /\
    (forall m : nat, (m < position)%nat -> ~ occursAt escapedQuote json m) /\
    Boom.statusCode response = 500 /\
    onSuccess s err policy = guarded /\
    (classify err policy = Value policy -> completionCallback s err policy = guarded) /\
    (truthy err = false ->
     completionCallback s err (VPromise (Fulfilled policy)) =
       (DebugLog "Auth function returned a promise" :: Later :: guarded.1, Returned)).
Proof.
  intros Hjson Hinc.
  destruct (onSuccess_guard policy json Hjson Hinc) as (n & Hocc & Hmin & Hrun).
  exists n. cbv zeta. repeat split; try done.
  - intros Hcls. unfold completionCallback. by rewrite Hcls.
  - intros Herr. unfold completionCallback, classify. rewrite Herr. cbn.
    unfold andThen. cbn. by rewrite Hrun.
Qed.

End Validation.

(** A policy whose [principalId] starts with a double quote: the guard
    fires, and the escaped quote stands at the position it reports. *)
Lemma escaped_quote_guard_comes_first_witness :
  exists position : nat,
    Str.occursAt Str.escapedQuote Sample.quotedJson position /\
    replies (onSuccess Sample.theScheme VNull Sample.quotedPolicy).1 =
      [Reply (Boom.badImplementation
                (VString ("Invalid auth data at position " +:+ Str.ofNat position
                          +:+ ". Data: " +:+ Sample.quotedJson))
                VUndefined)].
Proof.
  destruct (escaped_quote_guard_comes_first Sample.theScheme VNull
              Sample.quotedPolicy Sample.quotedJson eq_refl)
    as (n & Hocc & _ & _ & Hrun & _).
  - by apply StrFacts.indexOf_found.
  - exists n. split; [exact Hocc|]. by rewrite Hrun.
Defined.

Section PrincipalId.
Import Str StrFacts JSON JSONFacts.

Variable s : scheme.
Variable err : value.

(** Past the serialization check, for a policy whose properties can be read
    (any but [null]), a falsy [principalId] (one that is missing reads as
    [undefined]) gets the forbidden response, status 403, whatever its type;
    a truthy one that is not a string gets the internal-error response,
    status 500.  [0], [false], [null] and [NaN] as [principalId] are thus
    answered by the first check, not by the second. *)
Theorem principalId_falsy_then_not_string
    (policy : value) (json : string) (principalId : value) :
  stringify policy = Some json ->
  ~ includes json escapedQuote ->
  get policy "principalId" = Some principalId ->
  (truthy principalId = false ->
   onSuccess s err policy =
     ([ServerlessLog ("Authorization response did not include a principalId: (λ: "
                      +:+ authFunName s +:+ ")") err;
       Reply (Boom.forbidden "No principalId set on the Response")],
      Returned)) /\
  (truthy principalId = true -> typeof principalId <> "string" ->
   onSuccess s err policy =
     ([ServerlessLog ("Authorization response error: principalId can be only a String: (λ: "
                      +:+ authFunName s +:+ ")") err;
       Reply (Boom.badImplementation (VString "principalId is not a string") VUndefined)],
      Returned)) /\
  Boom.statusCode (Boom.forbidden "No principalId set on the Response") = 403 /\
  Boom.statusCode
    (Boom.badImplementation (VString "principalId is not a string") VUndefined) = 500.
Proof.
  intros Hjson Hno Hget.
  pose proof (onSuccess_past_guard policy json Hjson Hno) as Hidx.
  repeat split.
  - intros Hfalsy. unfold onSuccess. rewrite Hjson. cbv zeta.
    rewrite Hidx, Hget, Hfalsy. reflexivity.
  - intros Htruthy Htype. unfold onSuccess. rewrite Hjson. cbv zeta.
    rewrite Hidx, Hget, Htruthy.
    apply String.eqb_neq in Htype. rewrite Htype. reflexivity.
Qed.

(** C7, at the policy [null].  Its serialization, the text [null], holds no
    escaped quote, so it passes the serialization check, and it has no
    [principalId]; yet the response is not the forbidden one: the read of
    [principalId] at line 100 throws a TypeError, and [onSuccess] gives no
    response at all. *)
Theorem null_policy_is_not_forbidden :
  stringify VNull = Some "null" /\
  indexOf "null" escapedQuote = -1 /\
  get VNull "principalId" = None /\
  onSuccess s err VNull = ([], Threw (cannotRead "principalId" VNull)) /\
  replies (onSuccess s err VNull).1 = [] /\
  replies (onSuccess s err VNull).1 <>
    [Reply (Boom.forbidden "No principalId set on the Response")].
Proof. repeat split. discriminate. Qed.

End PrincipalId.

(** The policies [{}] and [{ principalId: 42 }]. *)
Lemma principalId_falsy_then_not_string_witness :
  replies (onSuccess Sample.theScheme VNull (Sample.obj [])).1 =
    [Reply (Boom.forbidden "No principalId set on the Response")] /\
  replies (onSuccess Sample.theScheme VNull
             (Sample.obj [("principalId", VNumber (Finite 42))])).1 =
    [Reply (Boom.badImplementation (VString "principalId is not a string") VUndefined)].
Proof.
  split.
  - destruct (principalId_falsy_then_not_string Sample.theScheme VNull
                (Sample.obj []) "{}" VUndefined) as (Hfalsy & _).
    + reflexivity.
    + apply StrFacts.indexOf_none. reflexivity.
    + reflexivity.
    + rewrite Hfalsy; reflexivity.
  - destruct (principalId_falsy_then_not_string Sample.theScheme VNull
                (Sample.obj [("principalId", VNumber (Finite 42))])
                _ (VNumber (Finite 42)) eq_refl) as (_ & Htype & _).
    + apply StrFacts.indexOf_none. reflexivity.
    + reflexivity.
    + rewrite Htype; [reflexivity | reflexivity | discriminate].
Defined.

Section QuotedStrings.
Import Str StrFacts JSON JSONFacts.

Variable s : scheme.
Variable err : value.

Lemma assoc_of_key (key : string) (props : list (string * value)) :
  In key (map fst props) -> exists x, assoc key props = Some x /\ In (key, x) props.
Proof.
  induction props as [|[k y] props IH]; [done|]. simpl.
  destruct (String.eqb_spec k key) as [->|Hne].
  - intros _. exists y. split; [done | by left].
  - intros [Heq|Hin]; [done|].
    destruct (IH Hin) as (x & Hx & Hin'). exists x. split; [done | by right].
Qed.

Lemma scalar_allowed (x : value) : isScalar x = true -> allowed (typeof x) = true.
Proof. by destruct x. Qed.

(** The loop finds nothing to object to in an object of scalars. *)
Lemma firstNotAllowed_scalars (cls : objectClass) (entries : list (string * value))
    (keys : list string) :
  Forall (fun kv => isScalar kv.2 = true) entries ->
  (forall key, In key keys -> In key (map fst entries)) ->
  firstNotAllowed (VObject cls entries) keys = None.
Proof.
  intros Hscalar. induction keys as [|key keys IH]; intros Hkeys; [done|].
  cbn [firstNotAllowed]. unfold keyTypeOf. cbn [get ownEnumerable].
  destruct (assoc_of_key key entries) as (x & -> & Hin); [apply Hkeys; by left|].
  rewrite Forall_forall in Hscalar.
  rewrite (scalar_allowed x (Hscalar (key, x) ltac:(by apply list_elem_of_In))).
  apply IH. intros k Hk. apply Hkeys. by right.
Qed.

(** A valid policy whose serialization holds no escaped quote is let
    through: the response is [continue] with the principal as user. *)
Lemma valid_policy_continues (policy : value) (json : string) :
  validPolicy policy ->
  stringify policy = Some json ->
  ~ includes json escapedQuote ->
  exists principalId context,
    onSuccess s err policy =
      ([ServerlessLog ("Authorization function returned a successful response: (λ: "
                       +:+ authFunName s +:+ ")") policy;
        ReplyContinue (continueData (VString principalId) context)],
       Returned).
Proof.
  intros (cls & props & pid & -> & Hpid & Hne & Hctx) Hjson Hno.
  pose proof (onSuccess_past_guard _ json Hjson Hno) as Hidx.
  unfold onSuccess. rewrite Hjson. cbv zeta. rewrite Hidx.
  cbn [get ownEnumerable negb]. rewrite Hpid. cbn [truthy typeof].
  apply String.eqb_neq in Hne. rewrite Hne. cbn [negb String.eqb Ascii.eqb].
  exists pid. destruct (assoc "context" props) as [[| | | | | | |ccls entries|]|];
    try done.
  - exists (Some (VObject ccls entries)). cbn [truthy].
    rewrite firstNotAllowed_scalars; [done | done | auto].
  - exists None. reflexivity.
Qed.

(** C10.  A valid policy one of whose string values holds a double quote is
    not let through: its serialization holds the escaped quote, so the guard
    of lines 92 to 97 answers with the internal-error response. *)
Theorem quote_in_valid_policy_is_rejected (policy : value) :
  validPolicy policy ->
  hasQuoteInString policy ->
  exists (position : nat) (json : string),
    stringify policy = Some json /\
    includes json escapedQuote /\
    onSuccess s err policy =
      ([ServerlessLog ("Invalid auth data at position " +:+ ofNat position
                       +:+ ": (λ: " +:+ authFunName s +:+ ")") err;
        Reply (Boom.badImplementation
                 (VString ("Invalid auth data at position " +:+ ofNat position
                           +:+ ". Data: " +:+ json))
                 VUndefined)],
       Returned) /\
    forall data, ~ In (ReplyContinue data) (onSuccess s err policy).1.
Proof.
  intros (cls & props & pid & -> & Hpid & Hne & Hctx) Hquote.
  assert (exists json, stringify (VObject cls props) = Some json /\
                       includes json escapedQuote) as (json & Hjson & Hinc).
  { exists ("{" +:+ join "," (members props) +:+ "}"). split; [apply serialize_object|].
    destruct Hquote as [(text & Hget & Htext)|(context & key & text & Hget & Hin & Htext)].
    - cbn [get ownEnumerable] in Hget. rewrite Hpid in Hget. simplify_eq.
      apply (object_includes props "principalId" (VString text) (quote text));
        [by apply assoc_In | done | by apply quote_escapes].
    - cbn [get ownEnumerable] in Hget.
      destruct (assoc "context" props) as [ctx|] eqn:Hassoc; simplify_eq.
      destruct context as [| | | | | | |ccls entries|]; try done.
      cbn [ownEnumerable] in Hin.
      apply (object_includes props "context" (VObject ccls entries)
               ("{" +:+ join "," (members entries) +:+ "}"));
        [by apply assoc_In | done |].
      apply (object_includes entries key (VString text) (quote text));
        [done | done | by apply quote_escapes]. }
  destruct (onSuccess_guard s err _ json Hjson Hinc) as (n & _ & _ & Hrun).
  exists n, json. repeat split; try done.
  intros data. rewrite Hrun. cbn. intros [H|[H|[]]]; discriminate.
Qed.

End QuotedStrings.

(** The policy [Sample.quotedPolicy] is valid and its [principalId] holds a
    double quote. *)
Lemma quote_in_valid_policy_is_rejected_witness :
  exists position json,
    JSON.stringify Sample.quotedPolicy = Some json /\
    Boom.statusCode
      (Boom.badImplementation
         (VString ("Invalid auth data at position " +:+ Str.ofNat position
                   +:+ ". Data: " +:+ json)) VUndefined) = 500.
Proof.
  destruct (quote_in_valid_policy_is_rejected Sample.theScheme VNull Sample.quotedPolicy)
    as (n & json & Hjson & _).
  - exists PlainObject, [("principalId", VString (String Str.dquote "x"))],
      (String Str.dquote "x").
    split; [reflexivity|]. split; [reflexivity|]. split; [discriminate | exact I].
  - left. exists (String Str.dquote "x"). split; [reflexivity|].
    exists 0%nat, EmptyString, "x". split; reflexivity.
  - exists n, json. split; [exact Hjson | reflexivity].
Defined.

Section Context.
Import Str StrFacts JSON JSONFacts.

Variable s : scheme.
Variable err : value.

(** The loop stops at the first key, in enumeration order, whose value's
    type is not allowed; the keys before it are all allowed. *)
Lemma firstNotAllowed_first (context : value) (keys : list string) (key keyType : string) :
  firstNotAllowed context keys = Some (key, keyType) ->
  exists before after,
    keys = before ++ key :: after /\
    Forall (fun k => allowed (keyTypeOf context k) = true) before /\
    keyType = keyTypeOf context key /\
    allowed keyType = false.
Proof.
  induction keys as [|k keys IH]; [done|]. cbn [firstNotAllowed]. cbv zeta.
  destruct (allowed (keyTypeOf context k)) eqn:Hk.
  - intros H. destruct (IH H) as (before & after & -> & Hall & Htype & Hbad).
    exists (k :: before), after. split; [done|]. split; [|done].
    by constructor.
  - intros [= <- <-]. by exists [], keys.
Qed.

(** The loop finds a key whenever some own key has a value of a type that is
    not allowed. *)
Lemma firstNotAllowed_finds (context : value) (keys : list string) (key : string) :
  In key keys -> allowed (keyTypeOf context key) = false ->
  exists k t, firstNotAllowed context keys = Some (k, t).
Proof.
  intros Hin Hbad. induction keys as [|k keys IH]; [done|].
  cbn [firstNotAllowed]. cbv zeta.
  destruct (allowed (keyTypeOf context k)) eqn:Hk; [|by eauto].
  destruct Hin as [->|Hin]; [congruence | by apply IH].
Qed.

(** Lines 112 to 125 for a policy that passed the earlier checks: the log
    line names the key and its type; the response carries one and the same
    text for every type. *)
Lemma context_violation_response
    (policy : value) (json principalId : string) (context : value) (key keyType : string) :
  stringify policy = Some json ->
  ~ includes json escapedQuote ->
  get policy "principalId" = Some (VString principalId) ->
  principalId <> EmptyString ->
  get policy "context" = Some context ->
  truthy context = true ->
  firstNotAllowed context (map fst (ownEnumerable context)) = Some (key, keyType) ->
  onSuccess s err policy =
    ([ServerlessLog ("Context key " +:+ key +:+ " has type " +:+ keyType
                     +:+ ", allowed only (number, string, boolean): (λ: "
                     +:+ authFunName s +:+ ")") err;
      Reply (Boom.badImplementation (VString "Not allowed context key ${keyType}")
               VUndefined)],
     Returned).
Proof.
  intros Hjson Hno Hpid Hne Hctx Htruthy Hfirst.
  pose proof (onSuccess_past_guard _ json Hjson Hno) as Hidx.
  unfold onSuccess. rewrite Hjson. cbv zeta. rewrite Hidx, Hpid.
  cbn [truthy typeof negb]. apply String.eqb_neq in Hne. rewrite Hne.
  cbn [negb String.eqb Ascii.eqb]. rewrite Hctx, Htruthy, Hfirst. reflexivity.
Qed.

(** A policy with a string [principalId] and a context one of whose own
    values has a type that is not allowed is answered with an internal
    error, by this check or by the guard of line 94 before it. *)
Lemma bad_context_is_internal_error (cls : objectClass) (props : list (string * value))
    (principalId : string) (context : value) (key : string) :
  assoc "principalId" props = Some (VString principalId) ->
  principalId <> EmptyString ->
  assoc "context" props = Some context ->
  truthy context = true ->
  In key (map fst (ownEnumerable context)) ->
  allowed (keyTypeOf context key) = false ->
  exists message,
    replies (onSuccess s err (VObject cls props)).1 =
      [Reply (Boom.badImplementation (VString message) VUndefined)].
Proof.
  intros Hpid Hne Hctx Htruthy Hkey Hbad.
  pose proof (serialize_object cls props) as Hjson.
  destruct (Z.eq_dec (indexOf ("{" +:+ join "," (members props) +:+ "}") escapedQuote) (-1))
    as [Hidx|Hidx].
  - destruct (firstNotAllowed_finds context _ key Hkey Hbad) as (k & t & Hfirst).
    eexists. erewrite context_violation_response; [reflexivity | exact Hjson | | | | | |].
    + by apply indexOf_none.
    + cbn [get ownEnumerable]. by rewrite Hpid.
    + done.
    + cbn [get ownEnumerable]. by rewrite Hctx.
    + done.
    + exact Hfirst.
  - destruct (onSuccess_guard s err _ _ Hjson (indexOf_found _ _ Hidx))
      as (n & _ & _ & Hrun).
    eexists. by rewrite Hrun.
Qed.

(** C2, at [{ principalId: "u", context: { bad: {} } }].  The response is an
    internal error, and the log line says that key [bad] has type
    [object]; but the message of the response is the text of line 123 as it
    stands, placeholder included, and does not name the type. *)
Theorem context_type_missing_from_message :
  onSuccess s err Sample.badContextPolicy =
    ([ServerlessLog ("Context key bad has type object, allowed only (number, string, boolean): (λ: "
                     +:+ authFunName s +:+ ")") err;
      Reply (Boom.badImplementation (VString "Not allowed context key ${keyType}")
               VUndefined)],
     Returned) /\
  firstNotAllowed (Sample.obj [("bad", Sample.obj [])]) ["bad"] = Some ("bad", "object") /\
  ~ includes "Not allowed context key ${keyType}" "object".
Proof.
  split; [reflexivity|]. split; [reflexivity|].
  apply indexOf_none. reflexivity.
Qed.

End Context.

Section Completion.
Import Str StrFacts JSON JSONFacts.

Variable s : scheme.

(** A policy that has a serialization and is not [null] gets exactly one
    response, and no exception leaves [onSuccess]. *)
Lemma onSuccess_answers_once (err policy : value) :
  stringify policy <> None -> policy <> VNull ->
  List.length (replies (onSuccess s err policy).1) = 1%nat /\
  (onSuccess s err policy).2 = Returned.
Proof.
  intros Hjson Hnull. unfold onSuccess.
  destruct (stringify policy) as [json|] eqn:Hser; [|done]. cbv zeta.
  destruct (negb _); [done|].
  destruct (get policy "principalId") as [pid|] eqn:Hpid;
    [|by destruct policy].
  destruct (negb (truthy pid)); [done|].
  destruct (negb _); [done|].
  destruct (get policy "context") as [ctx|] eqn:Hctx; [|by destruct policy].
  destruct (truthy ctx); [|done].
  by destruct (firstNotAllowed _ _) as [[key keyType]|].
Qed.

(** [onSuccess] gives one response and returns, or gives none and throws. *)
Lemma onSuccess_cases (err policy : value) :
  (List.length (replies (onSuccess s err policy).1) = 1%nat /\
   (onSuccess s err policy).2 = Returned) \/
  (exists exn, onSuccess s err policy = ([], Threw exn)).
Proof.
  destruct policy as [| |[]|[| |z]|t| |elems|cls props|st];
    try (left; by apply onSuccess_answers_once);
    right; by eexists.
Qed.

(** C1, at the results [null] and [undefined] with no error.  Both are
    classified [Value] and handed to [onSuccess]; there, reading
    [principalId] of [null], or [indexOf] of the [undefined] that
    [JSON.stringify(undefined)] is, raises a TypeError.  No response is
    given, and the exception leaves the completion callback and the run of
    [authenticate]. *)
Theorem nullish_result_gets_no_response (envVars : option env) (req : request) :
  classify VNull VNull = Value VNull /\
  classify VNull VUndefined = Value VUndefined /\
  completionCallback s VNull VNull = ([], Threw (cannotRead "principalId" VNull)) /\
  completionCallback s VNull VUndefined = ([], Threw (cannotRead "indexOf" VUndefined)) /\
  replies (authenticate s envVars req (Return (Sample.completesWith VNull))).1.1 = [] /\
  (authenticate s envVars req (Return (Sample.completesWith VNull))).1.2 =
    Threw (cannotRead "principalId" VNull) /\
  replies (authenticate s envVars req (Return (Sample.completesWith VUndefined))).1.1 = [] /\
  (authenticate s envVars req (Return (Sample.completesWith VUndefined))).1.2 =
    Threw (cannotRead "indexOf" VUndefined).
Proof. repeat split. Qed.

End Completion.

(** ** The identity source (lines 31 to 36) *)

Section IdentitySource.
Import Str StrFacts.

Lemma literal_app (pat rest : string) : Regex.literal pat (pat +:+ rest) = Some rest.
Proof.
  induction pat as [|a pat IH]; [done|].
  rewrite app_cons. simpl. by rewrite Ascii.eqb_refl.
Qed.

Lemma literal_inv (pat src rest : string) :
  Regex.literal pat src = Some rest -> src = pat +:+ rest.
Proof.
  revert src. induction pat as [|a pat IH]; intros src; simpl.
  - by intros [= ->].
  - destruct src as [|b src]; [done|].
    destruct (Ascii.eqb_spec a b) as [->|_]; [|done].
    intros H. by rewrite app_cons, (IH _ H).
Qed.

Lemma wordToEnd_inv (rest group : string) :
  Regex.wordToEnd rest = Some group ->
  group = rest /\ rest <> EmptyString /\ forallb isWordChar rest = true.
Proof.
  unfold Regex.wordToEnd. destruct rest as [|c rest]; [done|].
  destruct (forallb isWordChar (String c rest)) eqn:Hword; [|done].
  by intros [= <-].
Qed.

(** Every identity source of the exact grammar is accepted, and the group
    is its token. *)
Lemma exec_exact (src : string) :
  exactIdentitySource src ->
  exists token, src = "method.request.header." +:+ token /\ Regex.exec src = Some token.
Proof.
  intros (token & -> & Hne & Hword). exists token. split; [done|].
  destruct token as [|c token]; [done|].
  unfold Regex.exec. rewrite !app_cons, app_nil_l.
  cbn -[Regex.wordToEnd]. unfold Regex.wordToEnd. by rewrite Hword.
Qed.

(** What the expression of line 31 accepts: the three words, each followed
    by any one character that is no line terminator, then the token. *)
Lemma exec_shape (src group : string) :
  Regex.exec src = Some group ->
  exists a b c : ascii,
    src = "method" +:+ String a ("request" +:+ String b ("header" +:+ String c group)) /\
    isLineTerminator a = false /\ isLineTerminator b = false /\
    isLineTerminator c = false /\
    group <> EmptyString /\ forallb isWordChar group = true.
Proof.
  unfold Regex.exec. intros H.
  destruct (Regex.literal "method" src) as [r1|] eqn:H1; [|done].
  apply literal_inv in H1 as ->. cbn [mbind option_bind] in H.
  destruct r1 as [|a r1]; [done|]. cbn [Regex.dot] in H.
  destruct (isLineTerminator a) eqn:Ha; [done|]. cbn [mbind option_bind] in H.
  destruct (Regex.literal "request" r1) as [r2|] eqn:H2; [|done].
  apply literal_inv in H2 as ->. cbn [mbind option_bind] in H.
  destruct r2 as [|b r2]; [done|]. cbn [Regex.dot] in H.
  destruct (isLineTerminator b) eqn:Hb; [done|]. cbn [mbind option_bind] in H.
  destruct (Regex.literal "header" r2) as [r3|] eqn:H3; [|done].
  apply literal_inv in H3 as ->. cbn [mbind option_bind] in H.
  destruct r3 as [|c r3]; [done|]. cbn [Regex.dot] in H.
  destruct (isLineTerminator c) eqn:Hc; [done|]. cbn [mbind option_bind] in H.
  apply wordToEnd_inv in H as (-> & Hne & Hword).
  by exists a, b, c.
Qed.

(** An identity source the expression rejects makes construction throw an
    error whose message names the authorizer function. *)
Lemma rejected_source_names_function (helper : functionHelper) (authFun : functionObject)
    (rt fn ep : string) (o : options) (populated : populatedFunction)
    (settings : authorizerOptions) :
  toObjectPopulated authFun o = Return populated ->
  authorizer populated = Authorizer settings ->
  authorizerType settings = VString "TOKEN" ->
  Regex.exec (identitySource settings) = None ->
  createAuthScheme helper authFun rt fn ep o =
    ([], Throw (newError
                  ("Serverless Offline only supports retrieving tokens from the headers (λ: "
                   +:+ name authFun +:+ ")"))) /\
  includes ("Serverless Offline only supports retrieving tokens from the headers (λ: "
            +:+ name authFun +:+ ")") (name authFun).
Proof.
  intros Hpop Hauth Htype Hexec. split.
  - unfold createAuthScheme. rewrite Hpop, Hauth, Htype, Hexec. reflexivity.
  - apply includes_intro.
Qed.

(** C3, at the identity source [method/request/header/Auth].  It is not of
    the grammar [method.request.header.<name>]: it has no full stop at all.
    Yet construction succeeds, with [auth] as the header to read, because
    the dots of the expression of line 31 stand unescaped and match any
    character.  (The function helper is [Sample.helper], whose
    [getFunctionOptions] returns an empty object.) *)
Theorem other_separators_are_accepted (funRuntime funName endpointPath : string)
    (options : options) :
  ~ exactIdentitySource "method/request/header/Auth" /\
  Regex.exec "method/request/header/Auth" = Some "Auth" /\
  createAuthScheme Sample.helper (Sample.authorizerFunction "method/request/header/Auth")
                   funRuntime funName endpointPath options =
    ([], Return {| authFunName := "authorizerFn";
                   identityHeader := "auth";
                   funRuntime := funRuntime;
                   funOptions := VObject PlainObject [];
                   funName := funName;
                   endpointPath := endpointPath;
                   schemeOptions := options;
                   newEnvVars := [] |}).
Proof.
  split; [|split; reflexivity].
  intros (token & Heq & _). cbv [String.append] in Heq. discriminate Heq.
Qed.

End IdentitySource.

(** ** The completion callback (lines 77 to 145) *)

Section Callback.

Variable s : scheme.

(** C5, as amended.  A completion whose error argument is truthy is answered
    with the unauthorized response, status 401, and the message
    [Unauthorized], whatever the result passed along with it. *)
Theorem truthy_error_is_unauthorized (err result : value) :
  truthy err = true ->
  completionCallback s err result =
    ([ServerlessLog ("Authorization function returned an error response: (λ: "
                     +:+ authFunName s +:+ ")") err;
      Reply (Boom.unauthorized "Unauthorized")],
     Returned) /\
  Boom.statusCode (Boom.unauthorized "Unauthorized") = 401.
Proof.
  intros Herr. split; [|done].
  unfold completionCallback, classify. by rewrite Herr.
Qed.

(** C8.  With no error (a falsy first argument), a result whose [then] and
    [catch] are both functions, a native promise or any other thenable, is
    classified [Deferred] and awaited: the callback logs one line, gives no
    response of its own, and a thenable that is no native promise is handed
    [onSuccess] and [onError] as its continuations.  Whichever of the two the
    result is: while it is pending nothing more happens; once it is
    fulfilled, after the callback has returned ([Later]), the value is
    validated as the policy by [onSuccess], so that
    [{ principalId: "user1" }] gets the response [continue] with the
    credentials [{ user: "user1" }], which have no [context]; once it is
    rejected the response is unauthorized. *)
Theorem deferred_result_is_awaited (err result : value) :
  truthy err = false ->
  isFunction (get result "then") = true ->
  isFunction (get result "catch") = true ->
  classify err result = Deferred result /\
  ((exists state, result = VPromise state) \/
   completionCallback s err result =
     ([DebugLog "Auth function returned a promise"],
      HandedOver result (onSuccess s err) (onError s))) /\
  (settlesAs result Pending ->
   whenSettled (completionCallback s err result) Pending =
     ([DebugLog "Auth function returned a promise"], Returned)) /\
  (forall policy,
     settlesAs result (Fulfilled policy) ->
     (onSuccess s err policy).2 = Returned ->
     whenSettled (completionCallback s err result) (Fulfilled policy) =
       (DebugLog "Auth function returned a promise" :: Later :: (onSuccess s err policy).1,
        Returned)) /\
  (settlesAs result (Fulfilled Sample.user1Policy) ->
   whenSettled (completionCallback s err result) (Fulfilled Sample.user1Policy) =
     ([DebugLog "Auth function returned a promise";
       Later;
       ServerlessLog ("Authorization function returned a successful response: (λ: "
                      +:+ authFunName s +:+ ")") Sample.user1Policy;
       ReplyContinue
         (VObject PlainObject
            [("credentials", VObject PlainObject [("user", VString "user1")])])],
      Returned)) /\
  (forall reason,
     settlesAs result (Rejected reason) ->
     whenSettled (completionCallback s err result) (Rejected reason) =
       ([DebugLog "Auth function returned a promise";
         Later;
         ServerlessLog ("Authorization function returned an error response: (λ: "
                        +:+ authFunName s +:+ ")") reason;
         Reply (Boom.unauthorized "Unauthorized")],
        Returned)).
Proof.
  intros Herr Hthen Hcatch.
  assert (classify err result = Deferred result) as Hcls.
  { unfold classify. rewrite Herr, Hthen, Hcatch.
    assert (truthy result = true) as ->; [|done].
    by destruct result as [| |[]|[| |z]|[|c t]| | | |]. }
  split; [done|].
  unfold completionCallback. rewrite Hcls.
  destruct result as [| |b|n|t| |elems|cls props|own];
    try (by cbn in Hthen); try (by cbn in Hcatch).
  all: try (split; [by right|];
            split; [intros _; reflexivity|];
            split; [|split; [intros _; reflexivity | intros reason _; reflexivity]];
            intros policy _ Hret; unfold whenSettled, andThen;
            cbn [fst snd awaitDeferred settle];
            destruct (onSuccess s err policy) as [es e] eqn:Hrun; cbn [fst snd] in *;
            by subst e).
  split; [by left; exists own|]. repeat split.
  - cbn. intros ->. reflexivity.
  - intros policy Hstate Hret. cbn in Hstate. subst own.
    unfold whenSettled, andThen. cbn [fst snd awaitDeferred settle].
    destruct (onSuccess s err policy) as [es e] eqn:Hrun. cbn [fst snd] in *.
    by subst e.
  - cbn. intros ->. reflexivity.
  - intros reason Hstate. cbn in Hstate. subst own. reflexivity.
Qed.

(** An exception that [onSuccess] throws inside the promise chain is handed
    to [onError]: a native promise fulfilled with [null] is answered
    unauthorized. *)
Lemma fulfilled_with_null_is_unauthorized (err : value) :
  truthy err = false ->
  replies (completionCallback s err (VPromise (Fulfilled VNull))).1 =
    [Reply (Boom.unauthorized "Unauthorized")].
Proof. intros Herr. unfold completionCallback, classify. by rewrite Herr. Qed.

End Callback.

(** An [Error] passed as the error argument, next to a valid policy. *)
Lemma truthy_error_is_unauthorized_witness :
  replies (completionCallback Sample.theScheme (newError "denied") Sample.user1Policy).1 =
    [Reply (Boom.unauthorized "Unauthorized")].
Proof.
  destruct (truthy_error_is_unauthorized Sample.theScheme (newError "denied")
              Sample.user1Policy) as [Hrun _].
  - reflexivity.
  - rewrite Hrun. reflexivity.
Defined.

(** C5 as stated fails: the empty string is an error argument that is set
    and not [null], yet the completion is treated as a success. *)
Lemma falsy_error_is_not_an_error :
  ~ (forall (s : scheme) (err result : value),
       err <> VUndefined -> err <> VNull ->
       replies (completionCallback s err result).1 =
         [Reply (Boom.unauthorized "Unauthorized")]).
Proof.
  intros H.
  specialize (H Sample.theScheme (VString EmptyString) Sample.user1Policy).
  discriminate H; discriminate.
Qed.

(** With [null] as the error argument and the thenable made by hand, which
    is no native promise: it is handed the two continuations, and once
    fulfilled with [{ principalId: "user1" }] the response is [continue]. *)
Lemma deferred_result_is_awaited_witness :
  classify VNull Sample.thenable = Deferred Sample.thenable /\
  replies (whenSettled (completionCallback Sample.theScheme VNull Sample.thenable)
             (Fulfilled Sample.user1Policy)).1 =
    [ReplyContinue
       (VObject PlainObject
          [("credentials", VObject PlainObject [("user", VString "user1")])])].
Proof.
  destruct (deferred_result_is_awaited Sample.theScheme VNull Sample.thenable
              eq_refl eq_refl eq_refl)
    as (Hcls & _ & _ & _ & Hful & _).
  split.
  - exact Hcls.
  - rewrite (Hful I). reflexivity.
Defined.

(** ** One request and its completions (lines 43 to 149) *)

Section Request.
Import Str StrFacts.

Variable s : scheme.
Variable envVars : option env.
Variable req : request.

Lemma replies_app (es fs : list effect) : replies (es ++ fs) = replies es ++ replies fs.
Proof. unfold replies. apply List.filter_app. Qed.

(** A header name of small letters, digits and underscores finds in the
    prototype of the headers object the function [Object] when it is
    [constructor], the prototype itself when it is [__proto__], and nothing
    otherwise. *)
Lemma inherited_by_lower_word (key : string) :
  forallb isLowerWordChar key = true ->
  objectPrototypeProperty key =
    if String.eqb key "constructor" then VFunction
    else if String.eqb key "__proto__" then VObject PlainObject []
    else VUndefined.
Proof.
  intros Hword. unfold objectPrototypeProperty, objectPrototypeMethods.
  cbn [existsb].
  destruct (String.eqb_spec key "constructor") as [->|_]; [done|].
  repeat match goal with
         | |- context [String.eqb key ?m] =>
             lazymatch m with
             | "__proto__" => fail
             | _ => destruct (String.eqb_spec key m) as [->|_];
                    [by vm_compute in Hword|]
             end
         end.
  reflexivity.
Qed.

(** The event handed to the authorizer function has type [TOKEN]; its
    [authorizationToken] is the value of the identity header when the
    request has it; when it has not, the token is what the prototype of the
    headers object holds under that name, which is [undefined] for every
    name but the inherited ones; its [methodArn] is made of the region, the
    two placeholders, the stage, the function name and the endpoint path, so
    it holds these verbatim and is the same whenever they are.  The handler
    is invoked with this event, header or no header, and no response is
    given before. *)
Theorem event_has_token_and_arn (h : handler) :
  let ev := createEvent s req in
  type ev = "TOKEN" /\
  (forall token, headers req !! identityHeader s = Some token ->
                 authorizationToken ev = VString token) /\
  (headers req !! identityHeader s = None ->
   authorizationToken ev = objectPrototypeProperty (identityHeader s)) /\
  (headers req !! identityHeader s = None ->
   forallb isLowerWordChar (identityHeader s) = true ->
   identityHeader s <> "constructor" -> identityHeader s <> "__proto__" ->
   authorizationToken ev = VUndefined) /\
  methodArn ev =
    "arn:aws:execute-api:" +:+ region (schemeOptions s) +:+ ":<Account id>:<API id>/"
    +:+ stage (schemeOptions s) +:+ "/" +:+ funName s +:+ "/" +:+ endpointPath s /\
  includes (methodArn ev) (stage (schemeOptions s)) /\
  includes (methodArn ev) (funName s) /\
  includes (methodArn ev) (endpointPath s) /\
  (forall (s' : scheme) (req' : request),
     region (schemeOptions s') = region (schemeOptions s) ->
     stage (schemeOptions s') = stage (schemeOptions s) ->
     funName s' = funName s ->
     endpointPath s' = endpointPath s ->
     methodArn (createEvent s' req') = methodArn ev) /\
  exists before after,
    (authenticate s envVars req (Return h)).1.1 = before ++ Invoke ev :: after /\
    replies before = [] /\
    after = (deliver (createLambdaContext (completionCallback s)) (h ev)).1.
Proof.
  cbv zeta. split; [done|]. split; [|split; [|split]]; [| | |split; [done|]].
  - intros token Hh. unfold createEvent, authorization. cbn. by rewrite Hh.
  - intros Hh. unfold createEvent, authorization. cbn. by rewrite Hh.
  - intros Hh Hword Hctor Hproto. unfold createEvent, authorization. cbn.
    rewrite Hh, (inherited_by_lower_word _ Hword).
    destruct (String.eqb_spec (identityHeader s) "constructor"); [done|].
    by destruct (String.eqb_spec (identityHeader s) "__proto__").
  - split; [|split; [|split; [|split]]].
    + cbn. apply includes_app_r, includes_app_r, includes_app_r, includes_app_l.
      apply includes_refl.
    + cbn. do 5 apply includes_app_r. apply includes_app_l, includes_refl.
    + cbn. do 7 apply includes_app_r. apply includes_refl.
    + intros s' req' Hregion Hstage Hfun Hpath. cbn.
      by rewrite Hregion, Hstage, Hfun, Hpath.
    + eexists _, _. split; [|split; [|reflexivity]].
      * unfold authenticate. cbn [fst snd]. unfold andThen. cbn [fst snd].
        rewrite <- List.app_assoc. reflexivity.
      * reflexivity.
Qed.

(** Each handling of a completion gives at most one response, unless it
    hands over to a thenable. *)
Lemma completionCallback_at_most_once (err result : value) :
  handsOver (completionCallback s err result) = false ->
  (List.length (replies (completionCallback s err result).1) <= 1)%nat.
Proof.
  unfold completionCallback.
  destruct (classify err result) as [cause|promiseLike|policy]; [cbn; lia| |].
  - destruct promiseLike as [| |b|n|t| |elems|cls props|[|v|reason]];
      try (cbn; lia).
    unfold andThen, handsOver. cbn [fst snd awaitDeferred settle].
    destruct (onSuccess_cases s err v) as [[Hone Hret]|[exn Hrun]].
    + destruct (onSuccess s err v) as [es e]. cbn [fst snd] in *. subst e.
      intros _. cbn [replies List.filter isReply app fst]. unfold replies in Hone.
      lia.
    + rewrite Hrun. cbn. lia.
  - destruct (onSuccess_cases s err policy) as [[Hone Hret]|[exn Hrun]].
    + rewrite Hone. lia.
    + rewrite Hrun. cbn. lia.
Qed.

(** A request gets at most one response for each completion that does not
    hand over to a thenable. *)
Lemma deliver_at_most_once_each (completions : list (value * value)) :
  Forall (fun c => handsOver (completionCallback s c.1 c.2) = false) completions ->
  (List.length (replies (deliver (createLambdaContext (completionCallback s))
                           completions).1)
   <= List.length completions)%nat.
Proof.
  induction 1 as [|[err result] completions Hown _ IH]; [done|].
  cbn [deliver createLambdaContext done fst snd] in *.
  pose proof (completionCallback_at_most_once err result Hown) as Hone.
  destruct ((completionCallback s err result).2); cbn [fst snd length];
    rewrite ?replies_app, ?List.length_app; lia.
Qed.

(** C6, at the identity source [method.request.header.constructor] and a
    request that has no header at all.  The scheme reads the header
    [constructor]; the headers object has no such property of its own, so
    the read of line 49 finds the function [Object] in its prototype: the
    token of the event is that function, not [undefined], the debug line
    shows its text, and the handler is invoked with this event. *)
Theorem absent_header_reads_inherited_property (h : handler) :
  createAuthScheme Sample.helper
                   (Sample.authorizerFunction "method.request.header.constructor")
                   "nodejs" "hello" "users/{id}" Sample.opts =
    ([], Return Sample.constructorScheme) /\
  headers Sample.bareRequest !! identityHeader Sample.constructorScheme = None /\
  authorizationToken (createEvent Sample.constructorScheme Sample.bareRequest) = VFunction /\
  authorizationToken (createEvent Sample.constructorScheme Sample.bareRequest)
    <> VUndefined /\
  In (DebugLog "Retrieved constructor header function Object() { [native code] }")
     (authenticate Sample.constructorScheme envVars Sample.bareRequest (Return h)).1.1 /\
  In (Invoke (createEvent Sample.constructorScheme Sample.bareRequest))
     (authenticate Sample.constructorScheme envVars Sample.bareRequest (Return h)).1.1.
Proof.
  split; [reflexivity|]. split; [reflexivity|]. split; [reflexivity|].
  split; [discriminate|].
  unfold authenticate. cbn [fst snd]. unfold andThen. cbn [fst snd].
  split; apply in_or_app; left; cbn; tauto.
Qed.

(** C4, as amended.  The callback keeps no record of earlier completions,
    so later completions are not ignored; what holds is that a request gets
    at most one response for each completion, as long as no completion
    hands over to a thenable that is no native promise.  A handler that
    completes twice with the policy [{ principalId: "user1" }] gets the
    response [continue] twice. *)
Theorem one_response_per_completion_at_most (h : handler) :
  Forall (fun c => handsOver (completionCallback s c.1 c.2) = false)
         (h (createEvent s req)) ->
  (List.length (replies (authenticate s envVars req (Return h)).1.1)
   <= List.length (h (createEvent s req)))%nat /\
  replies (authenticate s envVars req (Return Sample.completesTwice)).1.1 =
    [ReplyContinue
       (VObject PlainObject
          [("credentials", VObject PlainObject [("user", VString "user1")])]);
     ReplyContinue
       (VObject PlainObject
          [("credentials", VObject PlainObject [("user", VString "user1")])])].
Proof.
  intros Hown. split; [|reflexivity].
  unfold authenticate. cbn [fst snd]. unfold andThen. cbn [fst snd].
  rewrite !replies_app. cbn [replies List.filter isReply app].
  apply (deliver_at_most_once_each _ Hown).
Qed.

End Request.

(** The request with header [authorization: abc123], for the scheme built
    from the identity source [method.request.header.Authorization]. *)
Lemma event_has_token_and_arn_witness :
  (createAuthScheme Sample.helper
                    (Sample.authorizerFunction "method.request.header.Authorization")
                    "nodejs" "hello" "users/{id}" Sample.opts).2 = Return Sample.theScheme /\
  authorizationToken (createEvent Sample.theScheme Sample.theRequest) = VString "abc123" /\
  methodArn (createEvent Sample.theScheme Sample.theRequest) =
    "arn:aws:execute-api:us-east-1:<Account id>:<API id>/dev/hello/users/{id}".
Proof.
  destruct (event_has_token_and_arn Sample.theScheme None Sample.theRequest
              (Sample.completesWith Sample.user1Policy)) as (_ & Htoken & _ & _ & Harn & _).
  split; [reflexivity|]. split.
  - apply Htoken. reflexivity.
  - rewrite Harn. reflexivity.
Defined.

(** A handler that calls back twice: at most two responses. *)
Lemma one_response_per_completion_at_most_witness :
  (List.length (replies (authenticate Sample.theScheme None Sample.theRequest
                           (Return Sample.completesTwice)).1.1) <= 2)%nat.
Proof.
  destruct (one_response_per_completion_at_most Sample.theScheme None Sample.theRequest
              Sample.completesTwice) as [Hbound _].
  - repeat constructor.
  - exact Hbound.
Defined.

(** C4 as stated fails: a handler that calls back twice with a valid policy
    gets two responses, not at most one. *)
Lemma second_completion_is_answered_too :
  ~ (forall (s : scheme) (envVars : option env) (req : request) (h : handler),
       (List.length (replies (authenticate s envVars req (Return h)).1.1) <= 1)%nat).
Proof.
  intros H.
  specialize (H Sample.theScheme None Sample.theRequest Sample.completesTwice).
  vm_compute in H. lia.
Qed.

(** * Further properties *)

(** ** Construction (lines 11 to 38) *)

Section Construction.
Import Str StrFacts.

Lemma toLowerChar_word (c : ascii) :
  isWordChar c = true -> isLowerWordChar (toLowerChar c) = true.
Proof. by destruct c as [[] [] [] [] [] [] [] []]; vm_compute. Qed.

Lemma toLowerChar_fixed (c : ascii) : isLowerWordChar c = true -> toLowerChar c = c.
Proof. by destruct c as [[] [] [] [] [] [] [] []]; vm_compute. Qed.

Lemma toLowerCase_word (s : string) :
  forallb isWordChar s = true -> forallb isLowerWordChar (toLowerCase s) = true.
Proof.
  induction s as [|c s IH]; [done|]. simpl.
  intros [Hc Hs]%andb_prop. by rewrite (toLowerChar_word c Hc), IH.
Qed.

Lemma toLowerCase_fixed (s : string) :
  forallb isLowerWordChar s = true -> toLowerCase s = s.
Proof.
  induction s as [|c s IH]; [done|]. simpl.
  intros [Hc Hs]%andb_prop. by rewrite (toLowerChar_fixed c Hc), IH.
Qed.

(** What a successful construction tells about its arguments. *)
Lemma createAuthScheme_inv (helper : functionHelper) (authFun : functionObject)
    (rt fn ep : string) (o : options) (sch : scheme) :
  (createAuthScheme helper authFun rt fn ep o).2 = Return sch ->
  exists populated settings group functionOptions,
    toObjectPopulated authFun o = Return populated /\
    authorizer populated = Authorizer settings /\
    authorizerType settings = VString "TOKEN" /\
    Regex.exec (identitySource settings) = Some group /\
    getFunctionOptions helper authFun populated = Return functionOptions /\
    createAuthScheme helper authFun rt fn ep o = ([], Return sch) /\
    sch = {| authFunName := name authFun;
             identityHeader := toLowerCase group;
             funRuntime := rt;
             funOptions := functionOptions;
             funName := fn;
             endpointPath := ep;
             schemeOptions := o;
             newEnvVars := environment populated |}.
Proof.
  unfold createAuthScheme.
  destruct (toObjectPopulated authFun o) as [populated|exn]; [|done].
  destruct (authorizer populated) as [isNull|settings] eqn:Hauth; [done|].
  destruct (authorizerType settings) as [| |b|n|t| |elems|cls props|st] eqn:Htype;
    try done.
  cbn [isNotToken].
  destruct (String.eqb_spec t "TOKEN") as [->|_]; [|done]. cbn [negb].
  destruct (Regex.exec (identitySource settings)) as [group|] eqn:Hexec; [|done].
  destruct (getFunctionOptions helper authFun populated) as [functionOptions|exn] eqn:Hopt;
    [|done].
  cbn. intros [= <-]. by exists populated, settings, group, functionOptions.
Qed.

(** A scheme is built only for a populated function that has an authorizer
    of type [TOKEN] whose identity source is the three words, each followed
    by one character, and a word token, and whose function options could be
    made; the scheme keeps the runtime, the function options, the function
    name, the endpoint, the options and the environment as given, and
    nothing is logged. *)
Theorem scheme_only_for_token_header_source
    (helper : functionHelper) (authFun : functionObject) (rt fn ep : string)
    (o : options) (sch : scheme) :
  (createAuthScheme helper authFun rt fn ep o).2 = Return sch ->
  exists populated settings (a b c : ascii) (token : string),
    toObjectPopulated authFun o = Return populated /\
    authorizer populated = Authorizer settings /\
    authorizerType settings = VString "TOKEN" /\
    identitySource settings =
      "method" +:+ String a ("request" +:+ String b ("header" +:+ String c token)) /\
    token <> EmptyString /\ forallb isWordChar token = true /\
    getFunctionOptions helper authFun populated = Return (funOptions sch) /\
    identityHeader sch = toLowerCase token /\
    authFunName sch = name authFun /\
    funRuntime sch = rt /\
    funName sch = fn /\
    endpointPath sch = ep /\
    schemeOptions sch = o /\
    newEnvVars sch = environment populated /\
    (createAuthScheme helper authFun rt fn ep o).1 = [].
Proof.
  intros Hsch.
  destruct (createAuthScheme_inv _ _ _ _ _ _ _ Hsch)
    as (populated & settings & group & functionOptions
        & Hpop & Hauth & Htype & Hexec & Hopt & Hrun & ->).
  destruct (exec_shape _ _ Hexec) as (a & b & c & Hsrc & _ & _ & _ & Hne & Hword).
  exists populated, settings, a, b, c, group. rewrite Hrun. by repeat split.
Qed.

(** The header name a scheme reads is never empty and is made of small
    letters, digits and underscores only: lower-casing it again changes
    nothing. *)
Theorem identity_header_is_lower_case
    (helper : functionHelper) (authFun : functionObject) (rt fn ep : string)
    (o : options) (sch : scheme) :
  (createAuthScheme helper authFun rt fn ep o).2 = Return sch ->
  identityHeader sch <> EmptyString /\
  forallb isLowerWordChar (identityHeader sch) = true /\
  toLowerCase (identityHeader sch) = identityHeader sch.
Proof.
  intros Hsch.
  destruct (createAuthScheme_inv _ _ _ _ _ _ _ Hsch)
    as (populated & settings & group & functionOptions
        & _ & _ & _ & Hexec & _ & _ & ->). cbn.
  destruct (exec_shape _ _ Hexec) as (_ & _ & _ & _ & _ & _ & _ & Hne & Hword).
  split; [by destruct group|].
  split; [by apply toLowerCase_word|].
  by apply toLowerCase_fixed, toLowerCase_word.
Qed.

End Construction.

Section ConstructionOutcomes.
Import Str StrFacts.

Variable helper : functionHelper.
Variable authFun : functionObject.
Variables rt fn ep : string.
Variable o : options.

Lemma exec_prefixed (token : string) :
  Regex.exec ("method.request.header." +:+ token) = Regex.wordToEnd token.
Proof. unfold Regex.exec. rewrite !app_cons, app_nil_l. reflexivity. Qed.

(** An identity source [method.request.header.] followed by a word token
    builds, when the function options can be made, a scheme that reads from
    every request the header stored under the token in small letters: the
    token of the event is the value of that header when the request has it;
    when it has not, the token is [undefined], except for the two names
    that every plain object inherits a value for: the function [Object] for
    [constructor], the prototype of objects for [__proto__]. *)
Theorem configured_header_is_read (populated : populatedFunction)
    (settings : authorizerOptions) (functionOptions : value) (token : string) :
  toObjectPopulated authFun o = Return populated ->
  authorizer populated = Authorizer settings ->
  authorizerType settings = VString "TOKEN" ->
  identitySource settings = "method.request.header." +:+ token ->
  token <> EmptyString ->
  forallb isWordChar token = true ->
  getFunctionOptions helper authFun populated = Return functionOptions ->
  exists sch,
    createAuthScheme helper authFun rt fn ep o = ([], Return sch) /\
    identityHeader sch = toLowerCase token /\
    forall req,
      authorizationToken (createEvent sch req) =
        match headers req !! toLowerCase token with
        | Some v => VString v
        | None =>
            if String.eqb (toLowerCase token) "constructor" then VFunction
            else if String.eqb (toLowerCase token) "__proto__" then VObject PlainObject []
            else VUndefined
        end.
Proof.
  intros Hpop Hauth Htype Hsrc Hne Hword Hopt.
  unfold createAuthScheme. rewrite Hpop, Hauth, Htype, Hsrc, exec_prefixed.
  unfold Regex.wordToEnd. destruct token as [|c token]; [done|]. rewrite Hword, Hopt.
  cbn [isNotToken negb String.eqb Ascii.eqb Bool.eqb]. eexists. split; [reflexivity|].
  split; [reflexivity|]. intros req. unfold createEvent, authorization.
  cbn [authorizationToken identityHeader].
  destruct (headers req !! toLowerCase (String c token)); [done|].
  apply inherited_by_lower_word. by apply toLowerCase_word.
Qed.

(** A header name that is empty or holds a character outside letters,
    digits and the underscore (a hyphen, say) cannot be configured:
    construction throws the error of line 33. *)
Theorem non_word_header_name_is_rejected (populated : populatedFunction)
    (settings : authorizerOptions) (token : string) :
  toObjectPopulated authFun o = Return populated ->
  authorizer populated = Authorizer settings ->
  authorizerType settings = VString "TOKEN" ->
  identitySource settings = "method.request.header." +:+ token ->
  token = EmptyString \/ forallb isWordChar token = false ->
  createAuthScheme helper authFun rt fn ep o =
    ([], Throw (newError
                  ("Serverless Offline only supports retrieving tokens from the headers (λ: "
                   +:+ name authFun +:+ ")"))).
Proof.
  intros Hpop Hauth Htype Hsrc Hbad.
  unfold createAuthScheme. rewrite Hpop, Hauth, Htype, Hsrc, exec_prefixed.
  unfold Regex.wordToEnd. destruct token as [|c token]; [done|].
  destruct Hbad as [|Hbad]; [done|]. by rewrite Hbad.
Qed.

(** Whatever makes construction throw, the exception is one of four: the
    one that populating the function threw, passed on as it is after a
    debug line; the TypeError of reading [type] of an authorizer that is
    [undefined] or [null]; an error made here for a type that is not
    [TOKEN] or an identity source that does not match, whose message names
    the authorizer function; or the one that [getFunctionOptions] threw,
    passed on as it is.  In the last three cases nothing is logged. *)
Theorem construction_error_origins (exn : value) :
  (createAuthScheme helper authFun rt fn ep o).2 = Throw exn ->
  (toObjectPopulated authFun o = Throw exn /\
   exists line, (createAuthScheme helper authFun rt fn ep o).1 = [DebugLog line]) \/
  (createAuthScheme helper authFun rt fn ep o).1 = [] /\
  exists populated,
    toObjectPopulated authFun o = Return populated /\
    ((exists isNull,
        authorizer populated = NoAuthorizer isNull /\
        exn = cannotRead "type" (if isNull then VNull else VUndefined)) \/
     (exists settings message,
        authorizer populated = Authorizer settings /\
        (authorizerType settings <> VString "TOKEN" \/
         Regex.exec (identitySource settings) = None) /\
        exn = newError message /\ includes message (name authFun)) \/
     (exists settings group,
        authorizer populated = Authorizer settings /\
        authorizerType settings = VString "TOKEN" /\
        Regex.exec (identitySource settings) = Some group /\
        getFunctionOptions helper authFun populated = Throw exn)).
Proof.
  unfold createAuthScheme.
  destruct (toObjectPopulated authFun o) as [populated|e];
    [|cbn; intros [= ->]; left; split; [done | by eexists]].
  intros Hthrow. right.
  destruct (authorizer populated) as [isNull|settings] eqn:Hauth.
  { cbn in *. injection Hthrow as <-. split; [done|]. exists populated.
    split; [done|]. left. by exists isNull. }
  destruct (isNotToken (authorizerType settings)) eqn:Htoken.
  { cbn in *. injection Hthrow as <-. split; [done|]. exists populated.
    split; [done|]. right. left. eexists settings, _.
    split; [done|]. split; [|split; [reflexivity | apply includes_intro]].
    left. intros Heq. rewrite Heq in Htoken. discriminate Htoken. }
  assert (authorizerType settings = VString "TOKEN") as Htype.
  { destruct (authorizerType settings) as [| |b|n|t| |elems|cls props|st];
      try discriminate Htoken.
    cbn in Htoken. destruct (String.eqb_spec t "TOKEN") as [Heq|]; [|done].
    by rewrite Heq. }
  destruct (Regex.exec (identitySource settings)) as [group|] eqn:Hexec.
  - destruct (getFunctionOptions helper authFun populated) as [functionOptions|e] eqn:Hopt;
      [done|].
    cbn in *. injection Hthrow as <-. split; [done|]. exists populated.
    split; [done|]. right. right. by exists settings, group.
  - cbn in *. injection Hthrow as <-. split; [done|]. exists populated.
    split; [done|]. right. left. eexists settings, _.
    split; [done|]. split; [by right|]. split; [reflexivity | apply includes_intro].
Qed.

End ConstructionOutcomes.

(** The identity source [method.request.header.Authorization]. *)
Lemma scheme_only_for_token_header_source_witness :
  exists token,
    identityHeader Sample.theScheme = Str.toLowerCase token /\
    Str.forallb Str.isWordChar token = true.
Proof.
  destruct (scheme_only_for_token_header_source Sample.helper
              (Sample.authorizerFunction "method.request.header.Authorization")
              "nodejs" "hello" "users/{id}" Sample.opts Sample.theScheme eq_refl)
    as (_ & _ & _ & _ & _ & token & _ & _ & _ & _ & _ & Hword & _ & Hheader & _).
  exists token. split; [exact Hheader | exact Hword].
Defined.

Lemma identity_header_is_lower_case_witness :
  Str.toLowerCase (identityHeader Sample.theScheme) = identityHeader Sample.theScheme.
Proof.
  apply (identity_header_is_lower_case Sample.helper
           (Sample.authorizerFunction "method.request.header.Authorization")
           "nodejs" "hello" "users/{id}" Sample.opts Sample.theScheme eq_refl).
Defined.

Lemma configured_header_is_read_witness :
  exists sch,
    createAuthScheme Sample.helper
                     (Sample.authorizerFunction "method.request.header.Authorization")
                     "nodejs" "hello" "users/{id}" Sample.opts = ([], Return sch) /\
    authorizationToken (createEvent sch Sample.theRequest) = VString "abc123" /\
    authorizationToken (createEvent sch Sample.bareRequest) = VUndefined.
Proof.
  destruct (configured_header_is_read Sample.helper
              (Sample.authorizerFunction "method.request.header.Authorization")
              "nodejs" "hello" "users/{id}" Sample.opts
              (Sample.populated "method.request.header.Authorization")
              {| authorizerType := VString "TOKEN";
                 identitySource := "method.request.header.Authorization" |}
              (VObject PlainObject [])
              "Authorization" eq_refl eq_refl eq_refl eq_refl ltac:(discriminate)
              eq_refl eq_refl)
    as (sch & Hrun & _ & Hread).
  exists sch. split; [exact Hrun|]. rewrite !Hread. split; reflexivity.
Defined.

(** The identity source [method.request.header.X-Api-Key]. *)
Lemma non_word_header_name_is_rejected_witness :
  (createAuthScheme Sample.helper
                    (Sample.authorizerFunction "method.request.header.X-Api-Key")
                    "nodejs" "hello" "users/{id}" Sample.opts).2 =
    Throw (newError
             "Serverless Offline only supports retrieving tokens from the headers (λ: authorizerFn)").
Proof.
  rewrite (non_word_header_name_is_rejected Sample.helper
             (Sample.authorizerFunction "method.request.header.X-Api-Key")
             "nodejs" "hello" "users/{id}" Sample.opts
             (Sample.populated "method.request.header.X-Api-Key")
             {| authorizerType := VString "TOKEN";
                identitySource := "method.request.header.X-Api-Key" |}
             "X-Api-Key" eq_refl eq_refl eq_refl eq_refl (or_intror eq_refl)).
  reflexivity.
Defined.

(** A function without an authorizer: the TypeError of line 27. *)
Lemma construction_error_origins_witness :
  (createAuthScheme Sample.helper Sample.plainFunction
                    "nodejs" "hello" "users/{id}" Sample.opts).2 =
    Throw (cannotRead "type" VUndefined) /\
  instanceofError (cannotRead "type" VUndefined) = true.
Proof.
  destruct (construction_error_origins Sample.helper Sample.plainFunction
              "nodejs" "hello" "users/{id}" Sample.opts
              (cannotRead "type" VUndefined) eq_refl)
    as [[Hpop _]|[_ (populated & Hpop & Hcase)]].
  - discriminate Hpop.
  - split; reflexivity.
Defined.

(** ** Policy validation, further (lines 88 to 135) *)

Section ValidationOutcomes.
Import Str StrFacts JSON JSONFacts.

Variable s : scheme.
Variable err : value.

(** [onSuccess] gives exactly one response and returns when the policy has
    a serialization and is not [null].  When the serialization is
    [undefined], as it is for the policies [undefined] and a function, it
    throws the TypeError of calling [indexOf] on that; for the policy [null]
    it throws the TypeError of reading its [principalId]; both before
    anything is logged or answered. *)
Theorem onSuccess_replies_once_or_throws (policy : value) :
  (stringify policy <> None -> policy <> VNull ->
   List.length (replies (onSuccess s err policy).1) = 1%nat /\
   (onSuccess s err policy).2 = Returned) /\
  (stringify policy = None ->
   onSuccess s err policy = ([], Threw (cannotRead "indexOf" VUndefined))) /\
  (policy = VNull ->
   onSuccess s err policy = ([], Threw (cannotRead "principalId" VNull))) /\
  stringify VUndefined = None /\ stringify VFunction = None.
Proof.
  split; [apply onSuccess_answers_once|].
  split; [|split; [by intros ->|done]].
  intros Hnone. unfold onSuccess. by rewrite Hnone.
Qed.

Lemma firstNotAllowed_none (context : value) (keys : list string) :
  firstNotAllowed context keys = None <->
  Forall (fun key => allowed (keyTypeOf context key) = true) keys.
Proof.
  induction keys as [|key keys IH]; [done|]. cbn [firstNotAllowed]. cbv zeta.
  rewrite Forall_cons. destruct (allowed (keyTypeOf context key)).
  - rewrite IH. split; [by split | by intros [_ ?]].
  - split; [done | by intros [? _]].
Qed.

(** The [continue] response is given only to a policy that went through
    every check: its serialization holds no escaped quote, its
    [principalId] is a string that is not empty, and its [context] is either
    falsy, and then left out of the credentials, or has only own values of
    the allowed types, and then passed along as it is. *)
Theorem continue_only_for_checked_policy (policy data : value) :
  In (ReplyContinue data) (onSuccess s err policy).1 ->
  exists json principalId context,
    stringify policy = Some json /\
    ~ includes json escapedQuote /\
    get policy "principalId" = Some (VString principalId) /\
    principalId <> EmptyString /\
    get policy "context" = Some context /\
    ((truthy context = false /\ data = continueData (VString principalId) None) \/
     (truthy context = true /\
      Forall (fun key => allowed (keyTypeOf context key) = true)
             (map fst (ownEnumerable context)) /\
      data = continueData (VString principalId) (Some context))).
Proof.
  unfold onSuccess.
  destruct (stringify policy) as [json|] eqn:Hjson; [|done]. cbv zeta.
  destruct (Z.eqb_spec (indexOf json escapedQuote) (-1)) as [Hidx|_];
    [|by intros [|[|[]]]].
  cbn [negb].
  destruct (get policy "principalId") as [pid|] eqn:Hpid; [|done].
  destruct (truthy pid) eqn:Htruthy; [|by intros [|[|[]]]]. cbn [negb].
  destruct (String.eqb_spec (typeof pid) "string") as [Htype|_];
    [|by intros [|[|[]]]]. cbn [negb].
  destruct (get policy "context") as [context|] eqn:Hctx; [|done].
  assert (exists p, pid = VString p /\ p <> EmptyString) as (p & -> & Hne).
  { destruct pid as [| |[]|[| |]|p| | | |]; try done.
    exists p. split; [done|]. by destruct p. }
  intros Hin. exists json, p, context.
  split; [done|]. split; [by apply indexOf_none|]. split; [done|].
  split; [done|]. split; [done|].
  destruct (truthy context) eqn:Hc.
  - destruct (firstNotAllowed context _) as [[key keyType]|] eqn:Hfirst.
    + by destruct Hin as [|[|[]]].
    + right. split; [done|]. split; [by apply firstNotAllowed_none|].
      destruct Hin as [|[Heq|[]]]; [done|]. by simplify_eq.
  - left. split; [done|]. destruct Hin as [|[Heq|[]]]; [done|]. by simplify_eq.
Qed.

Lemma keyTypeOf_own (context : value) (key : string) (x : value) :
  truthy context = true ->
  assoc key (ownEnumerable context) = Some x ->
  keyTypeOf context key = typeof x.
Proof.
  intros Htruthy Hassoc. unfold keyTypeOf, get.
  destruct context; try done; by rewrite Hassoc.
Qed.

Lemma assoc_NoDup (props : list (string * value)) (key : string) (x : value) :
  NoDup (map fst props) -> In (key, x) props -> assoc key props = Some x.
Proof.
  induction props as [|[k y] props IH]; [done|]. cbn [map fst assoc].
  rewrite NoDup_cons. intros [Hk Hnd] [Heq|Hin].
  - simplify_eq. by rewrite String.eqb_refl.
  - destruct (String.eqb_spec k key) as [->|_]; [|by apply IH].
    destruct Hk. apply list_elem_of_In, List.in_map_iff. by exists (key, x).
Qed.

(** The loop of lines 113 to 125 runs to its end exactly when every own
    value of the context is a number, a string or a boolean. *)
Theorem context_loop_accepts_iff (context : value) :
  truthy context = true ->
  NoDup (map fst (ownEnumerable context)) ->
  firstNotAllowed context (map fst (ownEnumerable context)) = None <->
  Forall (fun kv => allowed (typeof kv.2) = true) (ownEnumerable context).
Proof.
  intros Htruthy Hnd. rewrite firstNotAllowed_none, !Forall_forall. split.
  - intros Hkeys [key x] Hin. cbn.
    rewrite <- (keyTypeOf_own context key x Htruthy).
    + apply Hkeys, list_elem_of_In, List.in_map_iff. exists (key, x).
      split; [done | by apply list_elem_of_In].
    + apply assoc_NoDup; [done | by apply list_elem_of_In].
  - intros Hvals key Hkey.
    destruct (assoc_of_key key (ownEnumerable context)) as (x & Hassoc & Hin);
      [by apply list_elem_of_In|].
    rewrite (keyTypeOf_own context key x Htruthy Hassoc).
    apply (Hvals (key, x)). by apply list_elem_of_In.
Qed.

(** A policy past the guard with a string [principalId] that is not empty
    is answered [continue]: with its [context], the very same value, when
    that is truthy and has only own values of the allowed types; without a
    [context] when that is falsy ([null], [0], the empty string, [false],
    missing). *)
Theorem context_is_passed_or_dropped
    (policy : value) (json principalId : string) (context : value) :
  stringify policy = Some json ->
  ~ includes json escapedQuote ->
  get policy "principalId" = Some (VString principalId) ->
  principalId <> EmptyString ->
  get policy "context" = Some context ->
  (truthy context = true ->
   Forall (fun kv => allowed (typeof kv.2) = true) (ownEnumerable context)) ->
  onSuccess s err policy =
    ([ServerlessLog ("Authorization function returned a successful response: (λ: "
                     +:+ authFunName s +:+ ")") policy;
      ReplyContinue
        (VObject PlainObject
           [("credentials",
             VObject PlainObject
               (("user", VString principalId) ::
                if truthy context then [("context", context)] else []))])],
     Returned).
Proof.
  intros Hjson Hno Hpid Hne Hctx Hvals.
  pose proof (onSuccess_past_guard _ json Hjson Hno) as Hidx.
  unfold onSuccess. rewrite Hjson. cbv zeta. rewrite Hidx, Hpid.
  cbn [truthy typeof negb]. apply String.eqb_neq in Hne. rewrite Hne.
  cbn [negb String.eqb Ascii.eqb]. rewrite Hctx.
  destruct (truthy context) eqn:Htruthy; [|done].
  assert (firstNotAllowed context (map fst (ownEnumerable context)) = None) as ->;
    [|done].
  apply firstNotAllowed_none, Forall_forall. intros key Hkey.
  destruct (assoc_of_key key (ownEnumerable context)) as (x & Hassoc & Hin);
    [by apply list_elem_of_In|].
  rewrite (keyTypeOf_own context key x Htruthy Hassoc).
  specialize (Hvals eq_refl). rewrite Forall_forall in Hvals.
  apply (Hvals (key, x)). by apply list_elem_of_In.
Qed.

(** A [principalId] that ends in a backslash trips the guard of line 94 as
    well, with no double quote in it: the backslash is written doubled, and
    the second one stands before the closing quote. *)
Theorem trailing_backslash_is_rejected
    (cls : objectClass) (props : list (string * value)) (text : string) :
  assoc "principalId" props = Some (VString (text +:+ String backslash EmptyString)) ->
  exists (position : nat) (json : string),
    stringify (VObject cls props) = Some json /\
    onSuccess s err (VObject cls props) =
      ([ServerlessLog ("Invalid auth data at position " +:+ ofNat position
                       +:+ ": (λ: " +:+ authFunName s +:+ ")") err;
        Reply (Boom.badImplementation
                 (VString ("Invalid auth data at position " +:+ ofNat position
                           +:+ ". Data: " +:+ json))
                 VUndefined)],
       Returned).
Proof.
  intros Hpid.
  assert (includes ("{" +:+ join "," (members props) +:+ "}") escapedQuote) as Hinc.
  { apply (object_includes props "principalId" _ _ _ (assoc_In _ _ _ Hpid) eq_refl).
    unfold quote. rewrite quoteBody_app, app_assoc.
    apply includes_app_r, includes_app_r.
    apply indexOf_found. by vm_compute. }
  destruct (onSuccess_guard s err _ _ (serialize_object cls props) Hinc)
    as (n & _ & _ & Hrun).
  by exists n, ("{" +:+ join "," (members props) +:+ "}").
Qed.

End ValidationOutcomes.

(** ** The guard of line 94, exactly *)

Section GuardExactly.
Import Str StrFacts JSON JSONFacts.

Lemma hasEscapedQuote_cons (a : ascii) (s : string) :
  hasEscapedQuote (String a s) =
    (startsWith escapedQuote (String a s) || hasEscapedQuote s)%bool.
Proof.
  unfold escapedQuote. destruct s as [|b s]; cbn [hasEscapedQuote startsWith].
  - by destruct (Ascii.eqb backslash a).
  - destruct (Ascii.eqb backslash a); [|done].
    by destruct (Ascii.eqb dquote b).
Qed.

Lemma hasEscapedQuote_occurs (s : string) :
  hasEscapedQuote s = true <-> exists n, occursAt escapedQuote s n.
Proof.
  induction s as [|a s IH].
  - split; [done|]. intros [[|n] Hocc].
    + by apply occursAt_0 in Hocc.
    + by apply occursAt_empty_S in Hocc.
  - rewrite hasEscapedQuote_cons, orb_true_iff, IH. split.
    + intros [Hstart|[n Hocc]].
      * exists 0%nat. by apply occursAt_0.
      * exists (S n). by apply occursAt_S.
    + intros [[|n] Hocc].
      * left. by apply occursAt_0.
      * right. exists n. by apply occursAt_S in Hocc.
Qed.

Lemma hasEscapedQuote_includes (s : string) :
  hasEscapedQuote s = true <-> includes s escapedQuote.
Proof. apply hasEscapedQuote_occurs. Qed.

Lemma lastChar_None (s : string) : lastChar s = None -> s = EmptyString.
Proof.
  induction s as [|a s IH]; [done|]. cbn [lastChar].
  destruct s as [|b s]; [done|]. intros H. by specialize (IH H).
Qed.

Lemma lastChar_app (s t : string) :
  lastChar (s +:+ t) = match lastChar t with
                       | Some c => Some c
                       | None => lastChar s
                       end.
Proof.
  induction s as [|a s IH].
  - rewrite app_nil_l. by destruct (lastChar t).
  - destruct s as [|b s].
    + rewrite app_cons, app_nil_l. destruct t as [|c t]; [done|].
      change (lastChar (String a (String c t))) with (lastChar (String c t)).
      destruct (lastChar (String c t)) eqn:Hlast; [done|].
      by apply lastChar_None in Hlast.
    + rewrite !app_cons. rewrite app_cons in IH.
      change (lastChar (String a (String b (s +:+ t))))
        with (lastChar (String b (s +:+ t))).
      by rewrite IH.
Qed.

Lemma endsWithBackslash_app (s t : string) :
  endsWithBackslash (s +:+ t) =
    match t with
    | EmptyString => endsWithBackslash s
    | String _ _ => endsWithBackslash t
    end.
Proof.
  unfold endsWithBackslash. rewrite lastChar_app.
  destruct t as [|c t]; [done|].
  destruct (lastChar (String c t)) eqn:Hlast; [done|]. by apply lastChar_None in Hlast.
Qed.

Lemma startsWithQuote_app (s t : string) :
  startsWithQuote (s +:+ t) =
    match s with
    | EmptyString => startsWithQuote t
    | String _ _ => startsWithQuote s
    end.
Proof. by destruct s. Qed.

(** An escaped quote in a concatenation lies in one of the two parts, or
    across the seam. *)
Lemma hasEscapedQuote_app (s t : string) :
  hasEscapedQuote (s +:+ t) =
    (hasEscapedQuote s || hasEscapedQuote t
     || (endsWithBackslash s && startsWithQuote t))%bool.
Proof.
  induction s as [|a s IH].
  - rewrite app_nil_l. unfold endsWithBackslash. cbn [hasEscapedQuote lastChar orb andb].
    by rewrite orb_false_r.
  - destruct s as [|b s].
    + rewrite app_cons, app_nil_l. destruct t as [|c t].
      * unfold endsWithBackslash. cbn [hasEscapedQuote lastChar startsWithQuote].
        by rewrite andb_false_r.
      * unfold endsWithBackslash. cbn [hasEscapedQuote lastChar startsWithQuote orb].
        by rewrite (orb_comm _ (hasEscapedQuote (String c t))).
    + rewrite !app_cons. rewrite !app_cons in IH.
      change (hasEscapedQuote (String a (String b (s +:+ t))))
        with ((Ascii.eqb backslash a && Ascii.eqb dquote b)
              || hasEscapedQuote (String b (s +:+ t)))%bool.
      rewrite IH.
      change (hasEscapedQuote (String a (String b s)))
        with ((Ascii.eqb backslash a && Ascii.eqb dquote b)
              || hasEscapedQuote (String b s))%bool.
      change (endsWithBackslash (String a (String b s)))
        with (endsWithBackslash (String b s)).
      by rewrite !orb_assoc.
Qed.

End GuardExactly.

Section GuardOnStrings.
Import Str StrFacts JSON JSONFacts.

Lemma quoteChar_hasEscapedQuote (c : ascii) :
  hasEscapedQuote (quoteChar c) = Ascii.eqb dquote c.
Proof. by destruct c as [[] [] [] [] [] [] [] []]; vm_compute. Qed.

Lemma quoteChar_startsWithQuote (c : ascii) : startsWithQuote (quoteChar c) = false.
Proof. by destruct c as [[] [] [] [] [] [] [] []]; vm_compute. Qed.

Lemma quoteChar_endsWithBackslash (c : ascii) :
  endsWithBackslash (quoteChar c) = Ascii.eqb backslash c.
Proof. by destruct c as [[] [] [] [] [] [] [] []]; vm_compute. Qed.

Lemma quoteChar_nonempty (c : ascii) : exists a r, quoteChar c = String a r.
Proof. destruct c as [[] [] [] [] [] [] [] []]; vm_compute; by eexists _, _. Qed.

Lemma quoteBody_startsWithQuote (text : string) :
  startsWithQuote (quoteBody text) = false.
Proof.
  destruct text as [|c text]; [done|]. cbn [quoteBody].
  rewrite startsWithQuote_app. destruct (quoteChar_nonempty c) as (a & r & Heq).
  rewrite Heq, <- Heq. apply quoteChar_startsWithQuote.
Qed.

Lemma quoteBody_empty (text : string) : quoteBody text = EmptyString -> text = EmptyString.
Proof.
  destruct text as [|c text]; [done|]. cbn [quoteBody].
  destruct (quoteChar_nonempty c) as (a & r & ->). by rewrite app_cons.
Qed.

Lemma endsWithBackslash_cons (c : ascii) (text : string) :
  endsWithBackslash (String c text) =
    match text with
    | EmptyString => Ascii.eqb backslash c
    | String _ _ => endsWithBackslash text
    end.
Proof. by destruct text. Qed.

Lemma quoteBody_endsWithBackslash (text : string) :
  endsWithBackslash (quoteBody text) = endsWithBackslash text.
Proof.
  induction text as [|c text IH]; [done|]. cbn [quoteBody].
  rewrite endsWithBackslash_app, endsWithBackslash_cons.
  destruct (quoteBody text) as [|a r] eqn:Hbody.
  - apply quoteBody_empty in Hbody as ->. apply quoteChar_endsWithBackslash.
  - destruct text as [|d text]; [done|]. exact IH.
Qed.

Lemma quoteBody_hasEscapedQuote (text : string) :
  hasEscapedQuote (quoteBody text) = existsb (Ascii.eqb dquote) (chars text).
Proof.
  induction text as [|c text IH]; [done|]. cbn [quoteBody chars existsb].
  rewrite hasEscapedQuote_app, quoteChar_hasEscapedQuote, IH, quoteBody_startsWithQuote.
  by rewrite andb_false_r, orb_false_r.
Qed.

(** The serialization of a string holds the escaped quote exactly when the
    string holds a double quote or ends in a backslash. *)
Lemma quote_hasEscapedQuote (text : string) :
  hasEscapedQuote (quote text) = tripsGuard text.
Proof.
  unfold quote, tripsGuard.
  rewrite !hasEscapedQuote_app, quoteBody_hasEscapedQuote, quoteBody_endsWithBackslash.
  change (hasEscapedQuote DQ) with false. change (endsWithBackslash DQ) with false.
  change (startsWithQuote DQ) with true.
  by rewrite andb_true_r, andb_false_l, !orb_false_r.
Qed.

Lemma quote_endsWithBackslash (text : string) : endsWithBackslash (quote text) = false.
Proof.
  unfold quote. rewrite !endsWithBackslash_app.
  by destruct (quoteBody text +:+ DQ).
Qed.

(** A text with no backslash in it, such as that of a number. *)
Lemma no_backslash (text : string) :
  forallb (fun c => negb (Ascii.eqb backslash c)) text = true ->
  hasEscapedQuote text = false /\ endsWithBackslash text = false.
Proof.
  induction text as [|c text IH]; [done|]. cbn [forallb].
  intros [Hc Htext]%andb_prop. destruct (IH Htext) as [Hhas Hends].
  rewrite hasEscapedQuote_cons, endsWithBackslash_cons, Hhas.
  apply negb_true_iff in Hc. unfold escapedQuote. cbn [startsWith]. rewrite Hc.
  by destruct text.
Qed.

Lemma uint_no_backslash (d : Decimal.uint) :
  forallb (fun c => negb (Ascii.eqb backslash c)) (NilEmpty.string_of_uint d) = true.
Proof. induction d; done. Qed.

Lemma ofZ_no_backslash (z : Z) :
  forallb (fun c => negb (Ascii.eqb backslash c)) (ofZ z) = true.
Proof.
  unfold ofZ, NilZero.string_of_int, NilZero.string_of_uint.
  destruct (Z.to_int z) as [d|d]; destruct d; try done; apply uint_no_backslash.
Qed.

(** Joining texts none of which ends in a backslash adds no escaped quote. *)
Lemma join_hasEscapedQuote (xs : list string) :
  Forall (fun x => endsWithBackslash x = false) xs ->
  hasEscapedQuote (join "," xs) = existsb hasEscapedQuote xs /\
  endsWithBackslash (join "," xs) = false.
Proof.
  induction 1 as [|x xs Hx Hxs [IHhas IHends]]; [done|].
  destruct xs as [|y xs].
  - cbn [join existsb]. by rewrite orb_false_r.
  - change (join "," (x :: y :: xs)) with (x +:+ "," +:+ join "," (y :: xs)).
    rewrite !hasEscapedQuote_app, !endsWithBackslash_app, IHhas, IHends, Hx.
    change (hasEscapedQuote ",") with false. change (endsWithBackslash ",") with false.
    cbn [existsb andb orb]. rewrite !orb_false_r.
    split; [done|]. by destruct (join "," (y :: xs)).
Qed.

End GuardOnStrings.

Section GuardOnValues.
Import Str StrFacts JSON JSONFacts.

(** Induction over values that reaches into arrays and objects. *)
Lemma value_nested_ind (P : value -> Prop) :
  P VUndefined -> P VNull -> (forall b, P (VBool b)) -> (forall n, P (VNumber n)) ->
  (forall text, P (VString text)) -> P VFunction ->
  (forall elems, Forall P elems -> P (VArray elems)) ->
  (forall cls props, Forall (fun kv => P kv.2) props -> P (VObject cls props)) ->
  (forall state, P (VPromise state)) ->
  forall v, P v.
Proof.
  intros Hu Hn Hb Hnum Hs Hf Ha Ho Hp.
  fix IH 1. intros [| |b|n|text| |elems|cls props|state].
  - exact Hu.
  - exact Hn.
  - apply Hb.
  - apply Hnum.
  - apply Hs.
  - exact Hf.
  - apply Ha. revert elems. fix IHelems 1.
    intros [|e elems]; constructor; [apply IH | apply IHelems].
  - apply Ho. revert props. fix IHprops 1.
    intros [|[k x] props]; constructor; [apply IH | apply IHprops].
  - apply Hp.
Qed.

Lemma serializedStrings_object (cls : objectClass) (props : list (string * value)) :
  serializedStrings (VObject cls props) = memberStrings props.
Proof. reflexivity. Qed.

(** The text that stands for an array element. *)
Lemma element_text (e : value) :
  (forall json, serialize e = Some json ->
     hasEscapedQuote json = existsb tripsGuard (serializedStrings e) /\
     endsWithBackslash json = false) ->
  let text := match serialize e with Some t => t | None => "null" end in
  hasEscapedQuote text = existsb tripsGuard (serializedStrings e) /\
  endsWithBackslash text = false.
Proof.
  intros IH. cbv zeta. destruct (serialize e) as [t|] eqn:Hser; [by apply IH|].
  by destruct e as [| |[]|[| |]| | | | |].
Qed.

(** The serialization of a value holds the escaped quote exactly when one of
    the strings written for it holds a double quote or ends in a backslash;
    and it never ends in a backslash itself. *)
Lemma serialize_hasEscapedQuote (v : value) :
  forall json, serialize v = Some json ->
    hasEscapedQuote json = existsb tripsGuard (serializedStrings v) /\
    endsWithBackslash json = false.
Proof.
  induction v as [| |b|n|text| |elems IH|cls props IH|state] using value_nested_ind;
    intros json Hjson; try done.
  - by simplify_eq/=.
  - destruct b; by simplify_eq/=.
  - destruct n as [| |z]; cbn [serialize] in Hjson; simplify_eq; try done.
    by apply no_backslash, ofZ_no_backslash.
  - cbn [serialize] in Hjson. simplify_eq. cbn [serializedStrings existsb].
    rewrite quote_hasEscapedQuote, quote_endsWithBackslash.
    by rewrite orb_false_r.
  - cbn [serialize] in Hjson. simplify_eq.
    set (texts := map (fun e => match serialize e with Some t => t | None => "null" end)
                      elems).
    assert (Forall (fun x => endsWithBackslash x = false) texts /\
            existsb hasEscapedQuote texts =
              existsb tripsGuard (flat_map serializedStrings elems)) as [Hends Hhas].
    { subst texts. induction IH as [|e elems He _ [IHends IHhas]]; [done|].
      destruct (element_text e He) as [Hh He'].
      cbn [map flat_map existsb]. rewrite existsb_app, Hh, IHhas.
      split; [by constructor | done]. }
    destruct (join_hasEscapedQuote texts Hends) as [Hjoin Hjends].
    rewrite !hasEscapedQuote_app, !endsWithBackslash_app, Hjoin, Hjends, Hhas.
    change (hasEscapedQuote "[") with false. change (hasEscapedQuote "]") with false.
    change (endsWithBackslash "[") with false. change (endsWithBackslash "]") with false.
    cbn [serializedStrings andb orb]. rewrite !orb_false_r.
    split; [done|]. by destruct (join "," texts +:+ "]").
  - rewrite serialize_object in Hjson. simplify_eq.
    rewrite serializedStrings_object.
    assert (Forall (fun x => endsWithBackslash x = false) (members props) /\
            existsb hasEscapedQuote (members props) =
              existsb tripsGuard (memberStrings props)) as [Hends Hhas].
    { induction IH as [|[k x] props Hx _ [IHends IHhas]]; [done|].
      cbn [members memberStrings]. cbn [snd] in Hx.
      destruct (serialize x) as [t|] eqn:Hser.
      - destruct (Hx t eq_refl) as [Hh He].
        assert (memberStrings ((k, x) :: props) =
                k :: serializedStrings x ++ memberStrings props) as Hstrings
          by (by destruct x as [| |[]|[| |]| | | | |]).
        cbn [memberStrings] in Hstrings. rewrite Hstrings.
        split.
        + constructor; [|done]. rewrite !endsWithBackslash_app.
          destruct t as [|c t]; [done|]. exact He.
        + cbn [existsb]. rewrite existsb_app, <- IHhas, <- Hh.
          rewrite !hasEscapedQuote_app, quote_hasEscapedQuote, quote_endsWithBackslash.
          change (hasEscapedQuote ":") with false.
          change (endsWithBackslash ":") with false.
          cbn [andb orb]. by rewrite !orb_false_r, orb_assoc.
      - assert (memberStrings ((k, x) :: props) = memberStrings props) as Hstrings
          by (by destruct x as [| |[]|[| |]| | | | |]).
        cbn [memberStrings] in Hstrings. by rewrite Hstrings. }
    destruct (join_hasEscapedQuote _ Hends) as [Hjoin Hjends].
    rewrite !hasEscapedQuote_app, !endsWithBackslash_app, Hjoin, Hjends, Hhas.
    change (hasEscapedQuote "{") with false. change (hasEscapedQuote "}") with false.
    change (endsWithBackslash "{") with false. change (endsWithBackslash "}") with false.
    cbn [andb orb]. rewrite !orb_false_r.
    split; [done|]. by destruct (join "," (members props) +:+ "}").
  - by simplify_eq/=.
Qed.

End GuardOnValues.

Section GuardTheorem.
Import Str StrFacts JSON JSONFacts.

Variable s : scheme.
Variable err : value.

(** Two runs whose first log lines start with different letters differ. *)
Ltac other_branch H :=
  exfalso; injection H as H _; cbv [String.append] in H; discriminate H.

(** The guard of lines 92 to 97 answers a policy exactly when one of the
    strings written in its serialization (a string value or a property key,
    at any depth) holds a double quote or ends in a backslash.  A policy all
    of whose strings are free of both is never answered by the guard. *)
Theorem guard_trips_exactly (policy : value) (json : string) :
  stringify policy = Some json ->
  (exists position : nat,
     onSuccess s err policy =
       ([ServerlessLog ("Invalid auth data at position " +:+ ofNat position
                        +:+ ": (λ: " +:+ authFunName s +:+ ")") err;
         Reply (Boom.badImplementation
                  (VString ("Invalid auth data at position " +:+ ofNat position
                            +:+ ". Data: " +:+ json))
                  VUndefined)],
        Returned)) <->
  Exists (fun text => tripsGuard text = true) (serializedStrings policy).
Proof.
  intros Hjson.
  destruct (serialize_hasEscapedQuote policy json Hjson) as [Hhas _].
  rewrite Exists_exists.
  assert ((exists text, text ∈ serializedStrings policy /\ tripsGuard text = true) <->
          hasEscapedQuote json = true) as ->.
  { rewrite Hhas, existsb_exists. split; intros (text & Hin & Htrips); exists text;
      (split; [by apply list_elem_of_In | done]). }
  split.
  - intros [n Hrun]. destruct (hasEscapedQuote json) eqn:Hq; [done|]. exfalso.
    assert ((indexOf json escapedQuote =? -1) = true) as Hidx.
    { apply onSuccess_past_guard with policy; [done|].
      rewrite <- hasEscapedQuote_includes. by rewrite Hq. }
    unfold onSuccess in Hrun. rewrite Hjson in Hrun. cbv zeta in Hrun.
    rewrite Hidx in Hrun. cbn [negb] in Hrun.
    destruct (get policy "principalId") as [pid|]; [|done].
    destruct (negb (truthy pid)); [other_branch Hrun|].
    destruct (negb _); [other_branch Hrun|].
    destruct (get policy "context") as [context|]; [|done].
    destruct (truthy context); [|other_branch Hrun].
    destruct (firstNotAllowed _ _) as [[key keyType]|]; other_branch Hrun.
  - intros Hq. apply hasEscapedQuote_includes in Hq.
    destruct (onSuccess_guard s err policy json Hjson Hq) as (n & _ & _ & Hrun).
    by exists n.
Qed.

End GuardTheorem.

(** ** The completion callback, further (lines 77 to 145) *)

Section CallbackOutcomes.

Variable s : scheme.

Lemma classify_Deferred (err result promiseLike : value) :
  classify err result = Deferred promiseLike -> promiseLike = result.
Proof.
  unfold classify. destruct (truthy err); [done|].
  destruct (_ && _ && _)%bool; [by intros [= ->]|].
  by destruct (instanceofError result).
Qed.

(** With no error, a result that is an instance of [Error] (and not a
    thenable) is treated as the error: the response is unauthorized, and
    the log line carries the result. *)
Theorem error_result_is_unauthorized (err result : value) :
  truthy err = false ->
  instanceofError result = true ->
  (isFunction (get result "then") && isFunction (get result "catch"))%bool = false ->
  completionCallback s err result =
    ([ServerlessLog ("Authorization function returned an error response: (λ: "
                     +:+ authFunName s +:+ ")") result;
      Reply (Boom.unauthorized "Unauthorized")],
     Returned).
Proof.
  intros Herr Herror Hthen. unfold completionCallback, classify.
  rewrite Herr, Herror, <- andb_assoc, Hthen, andb_false_r. reflexivity.
Qed.

(** With no error, a native promise that has settled is answered exactly
    once and nothing is thrown, whatever it settled with: an exception that
    validation raises (for [null], [undefined] or a function) ends in the
    unauthorized response. *)
Theorem settled_promise_is_answered_once (err : value) (state : settlement value) :
  truthy err = false ->
  state <> Pending ->
  List.length (replies (completionCallback s err (VPromise state)).1) = 1%nat /\
  (completionCallback s err (VPromise state)).2 = Returned /\
  (forall v exn,
     state = Fulfilled v -> onSuccess s err v = ([], Threw exn) ->
     replies (completionCallback s err (VPromise state)).1 =
       [Reply (Boom.unauthorized "Unauthorized")]).
Proof.
  intros Herr Hstate. unfold completionCallback, classify. rewrite Herr.
  cbn [truthy get ownEnumerable assoc inheritedProperty String.eqb Ascii.eqb Bool.eqb
       orb andb isFunction typeof].
  unfold andThen. cbn [fst snd].
  destruct state as [|v|reason]; [done| |].
  2: { cbn. split; [done|]. split; [done|]. by intros v exn [=]. }
  cbn [awaitDeferred settle].
  destruct (onSuccess_cases s err v) as [[Hone Hret]|[exn Hthrow]].
  - destruct (onSuccess s err v) as [es ending] eqn:Hrun. cbn [fst snd] in *.
    subst ending. cbn [fst snd app replies List.filter isReply].
    split; [exact Hone|]. split; [done|].
    intros v' exn [= <-] Hthrow. rewrite Hrun in Hthrow. discriminate Hthrow.
  - rewrite Hthrow. cbn. split; [done|]. split; [done|]. by intros v' exn' _ _.
Qed.

(** One completion whose result is not a thenable other than a native
    promise is answered at most once.  It goes unanswered only when the
    result is a native promise still pending, or when an exception left the
    callback. *)
Theorem completion_is_answered_at_most_once (err result : value) :
  handsOver (completionCallback s err result) = false ->
  (List.length (replies (completionCallback s err result).1) <= 1)%nat /\
  (replies (completionCallback s err result).1 = [] ->
   classify err result = Deferred (VPromise Pending) \/
   (exists exn, (completionCallback s err result).2 = Threw exn)).
Proof.
  intros Hown. split; [by apply completionCallback_at_most_once|].
  revert Hown. unfold completionCallback.
  destruct (classify err result) as [cause|promiseLike|policy] eqn:Hcls.
  - done.
  - unfold andThen, handsOver. cbn [fst snd app].
    destruct promiseLike as [| |b|n|t| |elems|cls props|[|v|reason]]; try done.
    + by left.
    + cbn [awaitDeferred settle].
      destruct (onSuccess_cases s err v) as [[Hone Hret]|[exn Hthrow]].
      * destruct (onSuccess s err v) as [es ending]. cbn [fst snd] in *. subst ending.
        cbn [fst snd replies List.filter isReply].
        change (List.filter isReply es) with (replies es).
        intros _ Hnil. rewrite Hnil in Hone. done.
      * rewrite Hthrow. done.
  - intros _. destruct (onSuccess_cases s err policy) as [[Hone Hret]|[exn Hthrow]].
    + intros Hnil. rewrite Hnil in Hone. done.
    + rewrite Hthrow. intros _. right. by eexists.
Qed.

End CallbackOutcomes.

(** ** One request, further (lines 43 to 149) *)

Section RequestOutcomes.

Variable s : scheme.

Lemma quiet_app (es fs : list effect) : quiet es -> quiet fs -> quiet (es ++ fs).
Proof. unfold quiet. rewrite !List.filter_app. by intros [-> ->] [-> ->]. Qed.

Lemma onSuccess_quiet (err policy : value) : quiet (onSuccess s err policy).1.
Proof.
  unfold onSuccess. destruct (JSON.stringify policy) as [json|]; [|done]. cbv zeta.
  destruct (negb _); [done|].
  destruct (get policy "principalId") as [pid|]; [|done].
  destruct (negb (truthy pid)); [done|].
  destruct (negb _); [done|].
  destruct (get policy "context") as [context|]; [|done].
  destruct (truthy context); [|done].
  by destruct (firstNotAllowed _ _) as [[key keyType]|].
Qed.

Lemma completionCallback_quiet (err result : value) :
  quiet (completionCallback s err result).1.
Proof.
  unfold completionCallback. destruct (classify err result) as [cause|p|policy].
  - done.
  - unfold andThen. cbn [fst snd]. apply quiet_app; [done|].
    destruct p as [| |b|n|t| |elems|cls props|[|v|reason]]; try done.
    cbn [awaitDeferred settle]. pose proof (onSuccess_quiet err v) as Hq.
    destruct (onSuccess s err v) as [es [|exn|t k1 k2]]; try done.
    cbn [fst snd] in *. by apply quiet_app.
  - apply onSuccess_quiet.
Qed.

Lemma deliver_quiet (completions : list (value * value)) :
  quiet (deliver (createLambdaContext (completionCallback s)) completions).1.
Proof.
  induction completions as [|[err result] completions IH]; [done|].
  cbn [deliver createLambdaContext done].
  pose proof (completionCallback_quiet err result) as Hq.
  destruct (completionCallback s err result) as [es [|exn|t k1 k2]]; try done;
    cbn [fst snd] in *; by apply quiet_app.
Qed.

(** In every run of [authenticate] the environment is reset exactly once,
    from the set the scheme held to the function's own, before anything
    else but logging; the scheme then holds the function's set.  The handler
    is invoked exactly when it could be created, once, after the reset and
    with the event of the request; when it could not, the one response is
    the internal error (status 500) that wraps what creation threw. *)
Theorem environment_reset_once_before_invoke
    (envVars : option env) (req : request) (created : outcome handler) :
  exists before after,
    (authenticate s envVars req created).1.1 =
      before ++ ResetEnvVariables envVars (newEnvVars s) :: after /\
    quiet before /\ replies before = [] /\
    List.filter isReset after = [] /\
    (authenticate s envVars req created).2 = Some (newEnvVars s) /\
    match created with
    | Return h =>
        exists rest, after = Invoke (createEvent s req) :: rest /\ quiet rest
    | Throw exn =>
        after = [Reply (Boom.badImplementation exn
                          (VString ("Error while loading " +:+ authFunName s)))] /\
        Boom.statusCode (Boom.badImplementation exn
                           (VString ("Error while loading " +:+ authFunName s))) = 500
    end.
Proof.
  unfold authenticate. cbn [fst snd].
  destruct created as [h|exn].
  - unfold andThen. cbn [fst snd].
    pose proof (deliver_quiet (h (createEvent s req))) as Hq.
    eexists [_; _; _], _. split; [reflexivity|].
    split; [done|]. split; [done|]. split; [|split; [done|]].
    + cbn [List.filter isReset app]. apply Hq.
    + eexists. split; [reflexivity | exact Hq].
  - eexists [_; _; _], _. split; [reflexivity|]. by repeat split.
Qed.

End RequestOutcomes.

(** ** The further properties at sample inputs *)

(** The policy with the context [{ role: "admin", level: 3, active: true }]. *)
Lemma continue_only_for_checked_policy_witness :
  exists principalId context,
    get Sample.roleContextPolicy "principalId" = Some (VString principalId) /\
    get Sample.roleContextPolicy "context" = Some context /\
    principalId <> EmptyString.
Proof.
  destruct (continue_only_for_checked_policy Sample.theScheme VNull
              Sample.roleContextPolicy
              (continueData (VString "u") (Some Sample.roleContext)))
    as (json & principalId & context & _ & _ & Hpid & Hne & Hctx & _).
  - right. left. reflexivity.
  - exists principalId, context. by split; [|split].
Defined.

Lemma context_loop_accepts_iff_witness :
  firstNotAllowed Sample.roleContext (map fst (ownEnumerable Sample.roleContext)) = None.
Proof.
  apply (context_loop_accepts_iff Sample.roleContext).
  - reflexivity.
  - apply (bool_decide_unpack _). vm_compute. exact I.
  - repeat constructor.
Defined.

Lemma context_is_passed_or_dropped_witness :
  replies (onSuccess Sample.theScheme VNull Sample.roleContextPolicy).1 =
    [ReplyContinue
       (VObject PlainObject
          [("credentials",
            VObject PlainObject
              [("user", VString "u"); ("context", Sample.roleContext)])])].
Proof.
  rewrite (context_is_passed_or_dropped Sample.theScheme VNull Sample.roleContextPolicy
             _ "u" Sample.roleContext eq_refl).
  - reflexivity.
  - apply StrFacts.indexOf_none. reflexivity.
  - reflexivity.
  - discriminate.
  - reflexivity.
  - intros _. repeat constructor.
Defined.

(** The [principalId] is [x] followed by a backslash. *)
Lemma trailing_backslash_is_rejected_witness :
  exists position json,
    JSON.stringify Sample.backslashPolicy = Some json /\
    replies (onSuccess Sample.theScheme VNull Sample.backslashPolicy).1 =
      [Reply (Boom.badImplementation
                (VString ("Invalid auth data at position " +:+ Str.ofNat position
                          +:+ ". Data: " +:+ json))
                VUndefined)].
Proof.
  destruct (trailing_backslash_is_rejected Sample.theScheme VNull PlainObject
              [("principalId", VString (String "x" (String Str.backslash EmptyString)))]
              "x" eq_refl) as (n & json & Hjson & Hrun).
  exists n, json. split; [exact Hjson|].
  unfold Sample.backslashPolicy, Sample.obj. by rewrite Hrun.
Defined.

Lemma guard_trips_exactly_witness :
  (exists position : nat,
     replies (onSuccess Sample.theScheme VNull Sample.quotedPolicy).1 =
       [Reply (Boom.badImplementation
                 (VString ("Invalid auth data at position " +:+ Str.ofNat position
                           +:+ ". Data: " +:+ Sample.quotedJson))
                 VUndefined)]) /\
  Forall (fun text => tripsGuard text = false)
         (serializedStrings Sample.roleContextPolicy).
Proof.
  split.
  - destruct (proj2 (guard_trips_exactly Sample.theScheme VNull Sample.quotedPolicy
                       Sample.quotedJson eq_refl)) as [n Hrun].
    + apply Exists_cons_tl, Exists_cons_hd. reflexivity.
    + exists n. by rewrite Hrun.
  - repeat constructor.
Defined.

(** An [Error] returned as the result. *)
Lemma error_result_is_unauthorized_witness :
  replies (completionCallback Sample.theScheme VNull (newError "denied")).1 =
    [Reply (Boom.unauthorized "Unauthorized")].
Proof.
  rewrite (error_result_is_unauthorized Sample.theScheme VNull (newError "denied")
             eq_refl eq_refl eq_refl).
  reflexivity.
Defined.

(** A promise fulfilled with [null]. *)
Lemma settled_promise_is_answered_once_witness :
  replies (completionCallback Sample.theScheme VNull (VPromise (Fulfilled VNull))).1 =
    [Reply (Boom.unauthorized "Unauthorized")].
Proof.
  destruct (settled_promise_is_answered_once Sample.theScheme VNull (Fulfilled VNull)
              eq_refl ltac:(discriminate)) as (_ & _ & Hthrow).
  apply (Hthrow VNull (cannotRead "principalId" VNull)); reflexivity.
Defined.

(** A valid policy handed over directly. *)
Lemma completion_is_answered_at_most_once_witness :
  (List.length (replies (completionCallback Sample.theScheme VNull
                           Sample.user1Policy).1) <= 1)%nat.
Proof.
  apply (completion_is_answered_at_most_once Sample.theScheme VNull Sample.user1Policy
           eq_refl).
Defined.

(** The policy [{ principalId: "u", context: { bad: {} } }]. *)
Lemma bad_context_is_internal_error_witness :
  exists message,
    replies (onSuccess Sample.theScheme VNull Sample.badContextPolicy).1 =
      [Reply (Boom.badImplementation (VString message) VUndefined)].
Proof.
  apply (bad_context_is_internal_error Sample.theScheme VNull PlainObject
           [("principalId", VString "u"); ("context", Sample.obj [("bad", Sample.obj [])])]
           "u" (Sample.obj [("bad", Sample.obj [])]) "bad");
    [reflexivity | discriminate | reflexivity | reflexivity | by left | reflexivity].
Defined.

(** A context whose second key is the first with a value that is not
    allowed. *)
Lemma firstNotAllowed_first_witness :
  exists before after,
    ["ok"; "bad"; "worse"] = before ++ "bad" :: after /\
    Forall (fun k =>
              allowed (keyTypeOf (Sample.obj [("ok", VBool true); ("bad", VNull);
                                              ("worse", VUndefined)]) k) = true) before.
Proof.
  destruct (firstNotAllowed_first
              (Sample.obj [("ok", VBool true); ("bad", VNull); ("worse", VUndefined)])
              ["ok"; "bad"; "worse"] "bad" "object" eq_refl)
    as (before & after & Hkeys & Hall & _).
  by exists before, after.
Defined.
